(** * findBlockBeforeDate: the latest block strictly before a date

    A shallow embedding of [src/findBlockBeforeDate.ts] and the properties
    of its binary search and of its date parser.

    Conventions of the embedding.
    - A JavaScript [bigint] is a [Z].
    - A JavaScript [number] that holds an integer is a [Z] as well: a
      double that is an integer, or [2^1024] and [-2^1024] for the two
      infinities, which sit in the order of the doubles where these do.
      A conversion to a number rounds to the nearest double, to the one
      of even mantissa when two are as near, as the language does.
    - A string is a sequence of code units below 256.
    - The JSON-RPC endpoint behind the [url] is an [Endpoint]: a function
      from the request body to what [fetch] observes.  The module-level
      counter [rpcId] and the requests posted so far form the [World]
      that every asynchronous function threads.
    - [await] is sequencing in the monad [M]; a rejected promise is
      [Throw]; a [while] loop takes a bound on its iterations and is
      [Unsettled] when the bound is reached. *)

From Stdlib Require Import ZArith String Ascii List Bool Lia.
From Stdlib Require HexString.
Import ListNotations.

Local Open Scope string_scope.
Local Open Scope Z_scope.

(** ** JavaScript values *)

Definition bigint := Z.
Definition number := Z.

(** [Number.MAX_SAFE_INTEGER]. *)
Definition MAX_SAFE_INTEGER : Z := 2 ^ 53 - 1.

(** What stands for [Infinity]: the double that would follow the
    largest one. *)
Definition Infinity : Z := 2 ^ 1024.

(** The integer nearest to [num / den], the even one of two that are as
    near, for [0 <= num] and [0 < den]. *)
Definition nearestEven (num den : Z) : Z :=
  let q := num / den in
  let r := num mod den in
  if (den <? 2 * r) || ((2 * r =? den) && Z.odd q) then q + 1 else q.

(** The double nearest to an integer [0 <= a], its exponent unbounded:
    [a] itself below [2^53], and beyond that the nearest multiple of the
    power of two that leaves 53 bits, ties to the even mantissa. *)
Definition nearestDouble (a : Z) : Z :=
  if a <? 2 ^ 53 then a
  else
    let e := Z.log2 a - 52 in
    nearestEven a (2 ^ e) * 2 ^ e.

(** [Number(b)] for a bigint [b]: the nearest double, an infinity from
    half way between the largest double and [2^1024] on. *)
Definition Number_of_bigint (b : bigint) : number :=
  Z.sgn b * Z.min Infinity (nearestDouble (Z.abs b)).

(** [Math.floor(n / d)] for doubles [0 < d <= n] that are integers: the
    quotient is rounded to the nearest double, which is then floored. *)
Definition floorOfQuotient (n d : number) : number :=
  let e := Z.log2 (n / d) - 52 in
  if 0 <=? e then nearestEven n (d * 2 ^ e) * 2 ^ e
  else nearestEven (n * 2 ^ (- e)) d / 2 ^ (- e).

(** The least magnitude that the conversion of a decimal literal rounds
    to an infinity: half way between the largest double
    [2^1024 - 2^971] and [2^1024]. *)
Definition overflow_threshold : Z := 2 ^ 1024 - 2 ^ 970.

(** ** Strings *)

(** WhiteSpace and LineTerminator code units below 256: TAB, LF, VT, FF,
    CR, SP and NBSP. *)
Definition isWhiteSpace (c : ascii) : bool :=
  let n := N.of_nat (nat_of_ascii c) in
  ((9 <=? n) && (n <=? 13) || (n =? 32) || (n =? 160))%N.

Fixpoint trimStart (s : string) : string :=
  match s with
  | String c rest => if isWhiteSpace c then trimStart rest else s
  | EmptyString => EmptyString
  end.

(** [trimEnd s] drops the trailing white space: a character is kept when
    something other than white space follows it or it is not white space
    itself. *)
Fixpoint trimEnd (s : string) : string :=
  match s with
  | String c rest =>
      match trimEnd rest with
      | EmptyString => if isWhiteSpace c then EmptyString else String c EmptyString
      | kept => String c kept
      end
  | EmptyString => EmptyString
  end.

(** [s.trim()]. *)
Definition trim (s : string) : string := trimEnd (trimStart s).

(** The value of one digit in a radix, [None] when the character is not
    a digit of that radix. *)
Definition digitValue (radix : Z) (c : ascii) : option Z :=
  let n := Z.of_nat (nat_of_ascii c) in
  let v :=
    if ((48 <=? n) && (n <=? 57))%Z then Some (n - 48)
    else if ((97 <=? n) && (n <=? 122))%Z then Some (n - 87)
    else if ((65 <=? n) && (n <=? 90))%Z then Some (n - 55)
    else None in
  match v with
  | Some d => if (d <? radix)%Z then Some d else None
  | None => None
  end.

Fixpoint digitsValueFrom (radix : Z) (acc : Z) (s : string) : option Z :=
  match s with
  | EmptyString => Some acc
  | String c rest =>
      match digitValue radix c with
      | Some d => digitsValueFrom radix (radix * acc + d) rest
      | None => None
      end
  end.

(** The value of a non-empty run of digits. *)
Definition digitsValue (radix : Z) (s : string) : option Z :=
  match s with
  | EmptyString => None
  | _ => digitsValueFrom radix 0 s
  end.

(** [StringToBigInt]: white space is trimmed; the empty string is [0n];
    a literal is a decimal with an optional sign, or an unsigned [0x],
    [0o] or [0b] literal.  [None] is the [SyntaxError] of [BigInt(s)]. *)
Definition StringToBigInt (s : string) : option bigint :=
  match trim s with
  | EmptyString => Some 0
  | String "0" (String ("x" | "X") ds) => digitsValue 16 ds
  | String "0" (String ("o" | "O") ds) => digitsValue 8 ds
  | String "0" (String ("b" | "B") ds) => digitsValue 2 ds
  | String "+" ds => digitsValue 10 ds
  | String "-" ds => option_map Z.opp (digitsValue 10 ds)
  | ds => digitsValue 10 ds
  end.

(** [n.toString(16)] for a bigint. *)
Definition toString16 (n : bigint) : string :=
  match n with
  | Z0 => "0"
  | Zpos p => HexString.Raw.of_pos p EmptyString
  | Zneg p => "-" ++ HexString.Raw.of_pos p EmptyString
  end.

Definition isSome {A} (o : option A) : bool :=
  match o with Some _ => true | None => false end.

(** [/^-?\d+$/.test(s)]. *)
Definition isIntegerLiteral (s : string) : bool :=
  match s with
  | String "-" ds => isSome (digitsValue 10 ds)
  | ds => isSome (digitsValue 10 ds)
  end.

(** The integer that a literal of the shape [-?digits] denotes, white
    space around it apart. *)
Definition integerLiteralValue (s : string) : option Z :=
  match trim s with
  | String "-" ds => option_map Z.opp (digitsValue 10 ds)
  | ds => digitsValue 10 ds
  end.

(** [Number(s)] on the literals that [isIntegerLiteral] accepts once
    trimmed ([Number] trims as well): the double nearest to the value of
    the literal.  [None] is a value that [Number.isFinite] rejects: the
    literal overflows to an infinity. *)
Definition Number_of_string (s : string) : option number :=
  match integerLiteralValue s with
  | Some n =>
      if Z.abs n <? overflow_threshold then Some (Number_of_bigint n)
      else None
  | None => None
  end.

(** ** The JSON-RPC client *)

Module RpcBlock.
(** [type RpcBlock]: every field is a string, the numeric ones hex. *)
Record t := mk {
  number : string;
  timestamp : string;
  hash : string;
  parentHash : string }.
End RpcBlock.

(** The parameters that the program puts in a request. *)
Inductive Json :=
| JString (s : string)
| JBool (b : bool).

(** The body posted by [rpc]:
    [{ jsonrpc: "2.0", id: rpcId++, method, params }]. *)
Record Request := mkRequest {
  jsonrpc : string;
  id : number;
  method : string;
  params : list Json }.

(** What one [fetch] comes to, at the type [T] that the caller of
    [rpc<T>] names. *)
Inductive Reply (T : Type) :=
| Rejected (reason : string)            (* [fetch] or [res.json()] rejects *)
| NotOk (status : Z) (text : string)    (* [!res.ok] *)
| Faulted (error : string)              (* [json.error] is set *)
| Result (result : T).                  (* [json.result] *)
Arguments Rejected {T} reason.
Arguments NotOk {T} status text.
Arguments Faulted {T} error.
Arguments Result {T} result.

(** The endpoint behind the [url], one handler for each type at which
    the program calls [rpc]: a string for [eth_blockNumber], a block or
    [null] for [eth_getBlockByNumber]. *)
Record Endpoint := mkEndpoint {
  answerString : Request -> Reply string;
  answerBlock : Request -> Reply (option RpcBlock.t) }.

(** The type argument of [rpc<T>] selects the handler. *)
Class Answer (T : Type) := answer : Endpoint -> Request -> Reply T.
#[export] Instance Answer_string : Answer string := answerString.
#[export] Instance Answer_block : Answer (option RpcBlock.t) := answerBlock.

(** What the program throws. *)
Inductive Exn :=
| FetchRejected (reason : string)
| RpcHttp (status : Z) (text : string)  (* [RPC HTTP ${res.status}: ${text}] *)
| RpcError (error : string)             (* [RPC error: ${...json.error}] *)
| BlockNotFound (hex : string)          (* [Block ${hex} not found] *)
| SyntaxError (literal : string)        (* [BigInt] of a malformed literal *)
| InvalidNumericDate                    (* [Invalid numeric date.] *)
| UnrecognizedDate (input : string).    (* [Unrecognized date format] *)

(** [let rpcId = 1] and the requests posted so far, oldest first. *)
Record World := mkWorld {
  rpcId : number;
  sent : list Request }.

Definition initialWorld : World := {| rpcId := 1; sent := [] |}.

(** How an asynchronous computation ends: its promise is fulfilled, or
    rejected, or is still pending when the bound on a loop is reached. *)
Inductive Outcome (A : Type) :=
| Ret (a : A)
| Throw (e : Exn)
| Unsettled.
Arguments Ret {A} a.
Arguments Throw {A} e.
Arguments Unsettled {A}.

(** An asynchronous computation: from the world before to its outcome
    and the world after. *)
Definition M (A : Type) : Type := World -> Outcome A * World.

Definition ret {A} (a : A) : M A := fun w => (Ret a, w).
Definition throw {A} (e : Exn) : M A := fun w => (Throw e, w).
Definition unsettled {A} : M A := fun w => (Unsettled, w).

Definition bind {A B} (m : M A) (k : A -> M B) : M B :=
  fun w =>
    match m w with
    | (Ret a, w') => k a w'
    | (Throw e, w') => (Throw e, w')
    | (Unsettled, w') => (Unsettled, w')
    end.

Declare Scope async_scope.
Delimit Scope async_scope with async.
Notation "x <- m ;; k" := (bind m (fun x => k))
  (at level 61, m at next level, right associativity) : async_scope.
Local Open Scope async_scope.

(** [while (cond) body], at most [fuel] tests of the condition. *)
Fixpoint while {S} (fuel : nat) (cond : S -> bool) (body : S -> M S)
    (s : S) : M S :=
  match fuel with
  | O => unsettled
  | Datatypes.S fuel' =>
      if cond s then s' <- body s ;; while fuel' cond body s'
      else ret s
  end.

(** [async function rpc<T>(url, method, params)]. *)
Definition rpc {T} `{Answer T} (url : Endpoint) (method : string)
    (params : list Json) : M T :=
  fun w =>
    let body :=
      {| jsonrpc := "2.0"; id := rpcId w; method := method;
         params := params |} in
    let w' := {| rpcId := rpcId w + 1; sent := sent w ++ [body] |} in
    match answer url body with
    | Rejected reason => (Throw (FetchRejected reason), w')
    | NotOk status text => (Throw (RpcHttp status text), w')
    | Faulted error => (Throw (RpcError error), w')
    | Result result => (Ret result, w')
    end.

(** [function hexToBigInt(hex)]: [BigInt(hex)], which throws on a
    malformed literal. *)
Definition hexToBigInt (hex : string) : M bigint :=
  match StringToBigInt hex with
  | Some b => ret b
  | None => throw (SyntaxError hex)
  end.

(** [async function getLatestBlockNumber(url)]. *)
Definition getLatestBlockNumber (url : Endpoint) : M bigint :=
  hexNum <- rpc url "eth_blockNumber" [] ;;
  hexToBigInt hexNum.

(** The hex quantity of a height: ["0x" + n.toString(16)]. *)
Definition hexOf (n : bigint) : string := "0x" ++ toString16 n.

(** [async function getBlockByNumber(url, n)]. *)
Definition getBlockByNumber (url : Endpoint) (n : bigint) : M RpcBlock.t :=
  let hex := hexOf n in
  block <- rpc url "eth_getBlockByNumber" [JString hex; JBool false] ;;
  match block with
  | Some b => ret b
  | None => throw (BlockNotFound hex)
  end.

(** [Number(hexToBigInt(b.timestamp))]. *)
Definition timestampOf (b : RpcBlock.t) : M number :=
  t <- hexToBigInt (RpcBlock.timestamp b) ;;
  ret (Number_of_bigint t).

(** ** The search *)

Module Candidate.
(** [{ n: bigint; ts: number; hash: string }]. *)
Record t := mk { n : bigint; ts : number; hash : string }.
End Candidate.

Module Found.
Local Abbreviation num := number.
(** The object that [findBlockBeforeDate] returns:
    [{ number, hash, timestamp }]. *)
Record t := mk { number : num; hash : string; timestamp : num }.
End Found.

(** The variables of the loop. *)
Record Vars := mkVars {
  lo : bigint;
  hi : bigint;
  candidate : option Candidate.t }.

(** [(lo + hi) >> 1n]. *)
Definition midpoint (lo hi : bigint) : bigint := Z.shiftr (lo + hi) 1.

(** The condition of the loop, [lo <= hi]. *)
Definition searching (v : Vars) : bool := lo v <=? hi v.

(** The body of the loop. *)
Definition probe (url : Endpoint) (targetUnixSec : number) (v : Vars)
    : M Vars :=
  let mid := midpoint (lo v) (hi v) in
  b <- getBlockByNumber url mid ;;
  ts <- timestampOf b ;;
  if ts <? targetUnixSec then
    ret {| lo := mid + 1; hi := hi v;
           candidate := Some (Candidate.mk mid ts (RpcBlock.hash b)) |}
  else
    ret {| lo := lo v; hi := mid - 1; candidate := candidate v |}.

(** What follows the loop. *)
Definition conclude (v : Vars) : option Found.t :=
  match candidate v with
  | None => None
  | Some c =>
      Some (Found.mk (Number_of_bigint (Candidate.n c)) (Candidate.hash c)
              (Candidate.ts c))
  end.

(** [async function findBlockBeforeDate(url, targetUnixSec)]; [fuel]
    bounds the tests of the loop condition. *)
Definition findBlockBeforeDate (fuel : nat) (url : Endpoint)
    (targetUnixSec : number) : M (option Found.t) :=
  latestNum <- getLatestBlockNumber url ;;
  latest <- getBlockByNumber url latestNum ;;
  latestTs <- timestampOf latest ;;
  if targetUnixSec <=? 0 then ret None
  else if latestTs <? targetUnixSec then
    ret (Some (Found.mk (Number_of_bigint latestNum) (RpcBlock.hash latest)
                 latestTs))
  else
    v <- while fuel searching (probe url targetUnixSec)
           {| lo := 0; hi := latestNum; candidate := None |} ;;
    ret (conclude v).

(** ** The date parser *)

(** [function parseTargetToUnixSeconds(input)].  [Date_parse] is the
    host's [Date.parse], in milliseconds, [None] for [NaN]; what it
    returns is a time value, an integer within [8.64e15], below [2^53],
    where the floor of the double [ms / 1000] is the floor of the exact
    quotient.  The numeric branch divides whatever double [Number]
    gave, hence [floorOfQuotient]. *)
Definition parseTargetToUnixSeconds (Date_parse : string -> option number)
    (input : string) : Outcome number :=
  if isIntegerLiteral (trim input) then
    match Number_of_string input with
    | None => Throw InvalidNumericDate
    | Some n => if 10 ^ 10 <? n then Ret (floorOfQuotient n 1000) else Ret n
    end
  else
    match Date_parse input with
    | None => Throw (UnrecognizedDate input)
    | Some ms => Ret (ms / 1000)
    end.

(** ** The command line *)

Module Report.
Local Abbreviation num := number.
(** The object that [main] prints:
    [{ blockNumber, blockHash, blockTimestamp, blockTimestampISO }]. *)
Record t := mk {
  blockNumber : num;
  blockHash : string;
  blockTimestamp : num;
  blockTimestampISO : string }.
End Report.

(** What reaches the catch of [main]: an error thrown by the parser or
    by the client, or the [RangeError] of [toISOString]. *)
Inductive Thrown :=
| Error (e : Exn)
| RangeError.

(** What the program writes, one value for each call of [console.log]
    or [console.error]; the object printed stands for its
    [JSON.stringify]. *)
Inductive Line :=
| Usage                   (* [console.error] of the usage text *)
| NoBlock                 (* [No block exists strictly before ...] *)
| Printed (r : Report.t)  (* [console.log(JSON.stringify({...}, null, 2))] *)
| Failed (t : Thrown).    (* [console.error(e)] in the catch *)

(** How the process ends: what it wrote and its exit status. *)
Record Exit := mkExit {
  console : list Line;
  status : Z }.

(** The largest magnitude, in milliseconds, of a valid [Date]. *)
Definition timeLimit : Z := 8640000000000000.

(** The catch of [main]: [console.error(e); process.exit(1)]. *)
Definition caught (t : Thrown) : Exit :=
  {| console := [Failed t]; status := 1 |}.

(** [async function main()] under its catch, [main().catch(...)].
    [argv] is [process.argv]; an argument that is missing or empty is
    falsy.  [fetchFrom] is the endpoint that a URL leads to;
    [toISOString] renders the milliseconds of a valid [Date], and a
    [Date] beyond [timeLimit] is invalid, so that [toISOString] throws.
    The product [result.timestamp * 1000] is exact up to [timeLimit],
    which is below [2^53], and a product beyond it stays beyond it once
    rounded.  A process that returns from [main] exits with status 0. *)
Definition main (fuel : nat) (Date_parse : string -> option number)
    (toISOString : number -> string) (fetchFrom : string -> Endpoint)
    (argv : list string) : M Exit :=
  match nth_error argv 2, nth_error argv 3 with
  | Some (String _ _ as rpcUrl), Some (String _ _ as dateInput) =>
      match parseTargetToUnixSeconds Date_parse dateInput with
      | Ret targetSec =>
          fun w =>
            match findBlockBeforeDate fuel (fetchFrom rpcUrl) targetSec w with
            | (Ret None, w') => (Ret {| console := [NoBlock]; status := 0 |}, w')
            | (Ret (Some result), w') =>
                let ms := Found.timestamp result * 1000 in
                if Z.abs ms <=? timeLimit then
                  (Ret {| console :=
                            [Printed
                               (Report.mk (Found.number result)
                                  (Found.hash result)
                                  (Found.timestamp result)
                                  (toISOString ms))];
                          status := 0 |}, w')
                else (Ret (caught RangeError), w')
            | (Throw e, w') => (Ret (caught (Error e)), w')
            | (Unsettled, w') => (Unsettled, w')
            end
      | Throw e => ret (caught (Error e))
      | Unsettled => unsettled
      end
  | _, _ => ret {| console := [Usage]; status := 1 |}
  end.

(** ** Test chains *)

(** An endpoint that serves a list of blocks, the block at height [h]
    being the [h]-th of the list, and that answers [eth_blockNumber]
    with the last height.  It reads nothing but the height of the
    request. *)
Definition heightOfParams (ps : list Json) : option bigint :=
  match ps with
  | JString hex :: _ => StringToBigInt hex
  | _ => None
  end.

Definition listEndpoint (blocks : list RpcBlock.t) : Endpoint :=
  {| answerString := fun _ => Result (hexOf (Z.of_nat (length blocks) - 1));
     answerBlock := fun r =>
       match heightOfParams (params r) with
       | Some h =>
           if h <? 0 then Result None
           else Result (nth_error blocks (Z.to_nat h))
       | None => Faulted "invalid argument"
       end |}.

Definition blockAt (h t : Z) : RpcBlock.t :=
  RpcBlock.mk (hexOf h) (hexOf t) ("block-" ++ toString16 h)
    ("block-" ++ toString16 (h - 1)).

Fixpoint blocksFrom (h : Z) (timestamps : list Z) : list RpcBlock.t :=
  match timestamps with
  | [] => []
  | t :: rest => blockAt h t :: blocksFrom (h + 1) rest
  end.

(** The chain of heights 0..5 with timestamps 100, 200, 200, 300, 400
    and 500. *)
Definition exampleTimestamps : list Z := [100; 200; 200; 300; 400; 500].
Definition exampleChain : Endpoint :=
  listEndpoint (blocksFrom 0 exampleTimestamps).

Definition exampleBlock (h : bigint) : RpcBlock.t :=
  nth (Z.to_nat h) (blocksFrom 0 exampleTimestamps) (blockAt h 0).

(** The same chain behind an endpoint that answers the request of a
    given [id] with an HTTP 503. *)
Definition failingAt (bad : number) (url : Endpoint) : Endpoint :=
  {| answerString := fun r =>
       if id r =? bad then NotOk 503 "Service Unavailable"
       else answerString url r;
     answerBlock := fun r =>
       if id r =? bad then NotOk 503 "Service Unavailable"
       else answerBlock url r |}.

(** ** Vocabulary of the properties *)

(** The world once a request has been posted. *)
Definition posted (w : World) (method : string) (params : list Json)
    : World :=
  {| rpcId := rpcId w + 1;
     sent := sent w ++ [mkRequest "2.0" (rpcId w) method params] |}.

(** The request that [getBlockByNumber] posts for a height. *)
Definition blockParams (n : bigint) : list Json :=
  [JString (hexOf n); JBool false].

(** The world after the two requests that open every search, for the
    latest height and for the block at that height. *)
Definition opened (w : World) (latestNum : bigint) : World :=
  posted (posted w "eth_blockNumber" []) "eth_getBlockByNumber"
    (blockParams latestNum).

(** The oracle is total up to a latest height: the latest height is
    served, and every height up to it has a block with a readable
    timestamp, at whatever moment it is asked for. *)
Definition Total (url : Endpoint) (latestNum : bigint) : Prop :=
  (forall w, fst (getLatestBlockNumber url w) = Ret latestNum)
  /\ (forall w h, 0 <= h <= latestNum ->
        exists b t, fst (getBlockByNumber url h w) = Ret b
                    /\ StringToBigInt (RpcBlock.timestamp b) = Some t).

(** A fixed oracle state: a latest height and, for every height up to
    it, one block, whose timestamp reads [ts h]. *)
Definition Serves (url : Endpoint) (latestNum : bigint)
    (chain : bigint -> RpcBlock.t) (ts : bigint -> bigint) : Prop :=
  (forall w, fst (getLatestBlockNumber url w) = Ret latestNum)
  /\ (forall w h, 0 <= h <= latestNum ->
        fst (getBlockByNumber url h w) = Ret (chain h))
  /\ (forall h, 0 <= h <= latestNum ->
        StringToBigInt (RpcBlock.timestamp (chain h)) = Some (ts h)).

(** The timestamps of a chain as the search reads them, as numbers. *)
Definition readAs (ts : bigint -> bigint) : bigint -> number :=
  fun h => Number_of_bigint (ts h).

(** Timestamps do not decrease with the height, up to the latest. *)
Definition nondecreasing (ts : bigint -> number) (latestNum : bigint)
    : Prop :=
  forall h1 h2, 0 <= h1 -> h1 <= h2 -> h2 <= latestNum -> ts h1 <= ts h2.

(** The endpoint answers by method and parameters alone, not by the
    [id] of the request. *)
Definition IdBlind (url : Endpoint) : Prop :=
  forall r r', method r = method r' -> params r = params r' ->
    answerString url r = answerString url r'
    /\ answerBlock url r = answerBlock url r'.

(** A hex quantity, as the endpoint encodes numbers: [0x] and at least
    one hex digit. *)
Definition isHexQuantity (s : string) : bool :=
  match s with
  | String "0" (String "x" ds) => isSome (digitsValue 16 ds)
  | _ => false
  end.

(** The turns that a search of [size] heights takes at most:
    [floor (log2 size) + 1]. *)
Definition probesBound (size : Z) : nat :=
  if size <=? 0 then O else S (Z.to_nat (Z.log2 size)).

(** [iterates url target k v w v' w']: [k] turns of the loop, each
    entered with [lo <= hi] and completed without a throw, lead from the
    variables [v] in the world [w] to [v'] in [w']. *)
Inductive iterates (url : Endpoint) (target : number)
    : nat -> Vars -> World -> Vars -> World -> Prop :=
| iterates_O v w : iterates url target O v w v w
| iterates_S k v w v1 w1 v' w' :
    searching v = true ->
    probe url target v w = (Ret v1, w1) ->
    iterates url target k v1 w1 v' w' ->
    iterates url target (S k) v w v' w'.

(** The variables on entry to the loop. *)
Definition entry (latestNum : bigint) : Vars :=
  {| lo := 0; hi := latestNum; candidate := None |}.

(** The variables after a turn that read the timestamp [t] and the hash
    [h] at the midpoint. *)
Definition turn (target : number) (v : Vars) (t : number) (h : string)
    : Vars :=
  let mid := midpoint (lo v) (hi v) in
  if t <? target
  then {| lo := mid + 1; hi := hi v;
          candidate := Some (Candidate.mk mid t h) |}
  else {| lo := lo v; hi := mid - 1; candidate := candidate v |}.

(** The heights still in play. *)
Definition span (v : Vars) : Z := hi v - lo v + 1.

(** The invariant of the search over a chain: the heights below [lo]
    are before the target, the heights above [hi] are not, and the
    candidate is the block just below [lo]. *)
Definition Bracketed (latestNum : bigint) (chain : bigint -> RpcBlock.t)
    (ts : bigint -> number) (target : number) (v : Vars) : Prop :=
  0 <= lo v /\ lo v <= hi v + 1 /\ hi v <= latestNum
  /\ (forall h, 0 <= h < lo v -> ts h < target)
  /\ (forall h, hi v < h <= latestNum -> target <= ts h)
  /\ match candidate v with
     | None => lo v = 0
     | Some c =>
         0 <= Candidate.n c
         /\ Candidate.n c = lo v - 1
         /\ Candidate.ts c = ts (Candidate.n c)
         /\ Candidate.hash c = RpcBlock.hash (chain (Candidate.n c))
     end.

(** A request for a block at a height from 0 to the latest. *)
Definition InRange (latestNum : bigint) (r : Request) : Prop :=
  exists h, 0 <= h <= latestNum
            /\ method r = "eth_getBlockByNumber"
            /\ params r = blockParams h.

(** A computation whose outcome does not depend on the world it starts
    in: neither on the counter [rpcId] nor on what was posted before. *)
Definition Blind {A} (m : M A) : Prop :=
  forall w1 w2, fst (m w1) = fst (m w2).

(** The reading of a numeric date in the words of the specification:
    milliseconds, floor-divided by 1000, when the magnitude exceeds
    [10^10], seconds otherwise. *)
Definition secondsByMagnitude (n : Z) : Z :=
  if 10 ^ 10 <? Z.abs n then n / 1000 else n.

Fixpoint zeros (k : nat) : string :=
  match k with
  | O => EmptyString
  | S k' => String "0" (zeros k')
  end.

(** The literal of [10^309], above every double. *)
Definition hugeLiteral : string := String "1" (zeros 309).

(** A host without a date parser, for the inputs that do not reach it. *)
Definition noDates : string -> option number := fun _ => None.

(** A chain whose timestamps go up and down. *)
Definition unsortedTimestamps : list Z := [300; 100; 150; 400; 200; 350].
Definition unsortedChain : Endpoint :=
  listEndpoint (blocksFrom 0 unsortedTimestamps).

(** The example chain with the timestamp of block 4 garbled. *)
Definition garbledChain : Endpoint :=
  listEndpoint
    [blockAt 0 100; blockAt 1 200; blockAt 2 200; blockAt 3 300;
     RpcBlock.mk (hexOf 4) "0x19g" "block-4" "block-3"; blockAt 5 500].

(** The requests that a search may post, numbered from [first]: each
    carries the next id, the version 2.0, and either [eth_blockNumber]
    without parameters or [eth_getBlockByNumber] with the hex of a
    height and [false]. *)
Fixpoint numbered (first : number) (reqs : list Request) : Prop :=
  match reqs with
  | [] => True
  | r :: rest =>
      id r = first
      /\ jsonrpc r = "2.0"
      /\ (method r = "eth_blockNumber" /\ params r = []
          \/ exists h, method r = "eth_getBlockByNumber"
                       /\ params r = blockParams h)
      /\ numbered (first + 1) rest
  end.

(** The request that [rpc] posts in a world. *)
Definition requestOf (w : World) (method : string) (params : list Json)
    : Request :=
  mkRequest "2.0" (rpcId w) method params.

(** White space only. *)
Fixpoint blank (s : string) : bool :=
  match s with
  | EmptyString => true
  | String c rest => isWhiteSpace c && blank rest
  end.

(** What the search knows of its candidate, whatever the endpoint
    serves: it was served at its height, between the bounds of the
    chain, and its timestamp is before the target. *)
Definition Vouched (url : Endpoint) (target : number) (latestNum : bigint)
    (v : Vars) : Prop :=
  0 <= lo v /\ hi v <= latestNum
  /\ match candidate v with
     | None => True
     | Some c =>
         Candidate.ts c < target
         /\ 0 <= Candidate.n c <= latestNum
         /\ exists wk b t,
              fst (getBlockByNumber url (Candidate.n c) wk) = Ret b
              /\ StringToBigInt (RpcBlock.timestamp b) = Some t
              /\ Candidate.ts c = Number_of_bigint t
              /\ RpcBlock.hash b = Candidate.hash c
     end.

(** A host that parses one date, the last millisecond before 1970. *)
Definition parsesEpochEve (s : string) : option number :=
  if String.eqb s "1969-12-31T23:59:59.999Z" then Some (-1) else None.

(** A stand-in for the host's [toISOString]: the milliseconds, in hex. *)
Definition plainISO (ms : number) : string := "ms " ++ toString16 ms.

(** The network of the tests: every URL leads to the example chain. *)
Definition exampleNet (url : string) : Endpoint := exampleChain.

(** An argument of the command line is given: present and not empty. *)
Definition given (arg : option string) : bool :=
  match arg with
  | Some (String _ _) => true
  | _ => false
  end.

(** The requests of successive turns for a list of heights, numbered
    from [first]. *)
Fixpoint probesFrom (first : number) (heights : list bigint)
    : list Request :=
  match heights with
  | [] => []
  | h :: rest =>
      mkRequest "2.0" first "eth_getBlockByNumber" (blockParams h)
      :: probesFrom (first + 1) rest
  end.

(** A chain of one block, stamped beyond the last valid [Date]. *)
Definition lateChain : Endpoint := listEndpoint [blockAt 0 8640000000001].

(** Heights and timestamps that [Number] converts exactly. *)
Definition isSafe (z : Z) : Prop := Z.abs z <= MAX_SAFE_INTEGER.



(** Chains with timestamps beyond the safe integers: [2^53 + 3] and
    [2^53 + 5] both read as [2^53 + 4], and [2^53 + 7] as [2^53 + 8]. *)
Definition wideTimestamps : list Z := [100; 2 ^ 53 + 3; 2 ^ 53 + 7].
Definition wideChain : Endpoint := listEndpoint (blocksFrom 0 wideTimestamps).
Definition wideBlock (h : bigint) : RpcBlock.t :=
  nth (Z.to_nat h) (blocksFrom 0 wideTimestamps) (blockAt h 0).
Definition wideTs (h : bigint) : bigint := nth (Z.to_nat h) wideTimestamps 0.


(** A chain of one block, stamped before 1970 with a signed decimal,
    which [BigInt] reads. *)
Definition earlyChain : Endpoint :=
  listEndpoint [RpcBlock.mk "0x0" "-5" "block-0" "none"].

(** A search returns exactly the latest block, its height, hash and
    timestamp, whenever the target is above the latest timestamp. *)
Definition ReturnsLatest (fuel : nat) (url : Endpoint) (target : number)
    (w : World) : Prop :=
  forall latestNum latest latestTs,
    fst (getLatestBlockNumber url w) = Ret latestNum ->
    fst (getBlockByNumber url latestNum (posted w "eth_blockNumber" []))
    = Ret latest ->
    StringToBigInt (RpcBlock.timestamp latest) = Some latestTs ->
    latestTs < target ->
    fst (findBlockBeforeDate fuel url target w)
    = Ret (Some (Found.mk latestNum (RpcBlock.hash latest) latestTs)).

(** * Properties *)

(** ** Numbers *)

(** [Number] converts a safe integer to itself. *)
Lemma Number_of_safe z : isSafe z -> Number_of_bigint z = z.
Proof.
  unfold isSafe, MAX_SAFE_INTEGER, Number_of_bigint, nearestDouble, Infinity.
  intros Hz.
  destruct (Z.abs z <? 2 ^ 53) eqn:E; [| apply Z.ltb_ge in E; lia].
  assert (2 ^ 53 < 2 ^ 1024) by (apply Z.pow_lt_mono_r; lia).
  rewrite Z.min_r by lia. destruct z; cbn [Z.sgn Z.abs]; lia.
Qed.

Lemma nearestEven_cases num den :
  nearestEven num den = num / den
  \/ (nearestEven num den = num / den + 1 /\ den <= 2 * (num mod den)).
Proof.
  unfold nearestEven.
  destruct (den <? 2 * (num mod den)) eqn:E1; cbn [orb].
  - right. apply Z.ltb_lt in E1. split; [reflexivity | lia].
  - destruct (2 * (num mod den) =? den) eqn:E2; cbn [andb];
      [| left; reflexivity].
    apply Z.eqb_eq in E2. destruct (Z.odd (num / den)); [right | left]; auto.
    split; [reflexivity | lia].
Qed.

Lemma nearestDouble_nonneg a : 0 <= a -> 0 <= nearestDouble a.
Proof.
  intros Ha. unfold nearestDouble.
  destruct (a <? 2 ^ 53); [exact Ha |].
  set (e := Z.log2 a - 52).
  assert (0 <= 2 ^ e) by (apply Z.pow_nonneg; lia).
  destruct (Z.eq_dec (2 ^ e) 0) as [E0 | E0].
  - rewrite E0. lia.
  - assert (0 <= a / 2 ^ e) by (apply Z.div_pos; lia).
    destruct (nearestEven_cases a (2 ^ e)) as [-> | [-> _]]; nia.
Qed.

(** [Number] keeps the sign. *)
Lemma Number_of_nonpos z : z <= 0 -> Number_of_bigint z <= 0.
Proof.
  intros Hz. unfold Number_of_bigint.
  pose proof (nearestDouble_nonneg (Z.abs z) (Z.abs_nonneg z)).
  assert (0 <= Z.min Infinity (nearestDouble (Z.abs z)))
    by (unfold Infinity; apply Z.min_glb; [apply Z.pow_nonneg |]; lia).
  destruct z; cbn [Z.sgn]; lia.
Qed.

(** What [Number] makes of integers around [2^53] and around the
    largest double. *)
Lemma Number_of_bigint_examples :
  Number_of_bigint (2 ^ 53 - 1) = 2 ^ 53 - 1
  /\ Number_of_bigint (2 ^ 53 + 1) = 2 ^ 53
  /\ Number_of_bigint (2 ^ 53 + 3) = 2 ^ 53 + 4
  /\ Number_of_bigint (2 ^ 53 + 5) = 2 ^ 53 + 4
  /\ Number_of_bigint (- (2 ^ 53 + 7)) = - (2 ^ 53 + 8)
  /\ Number_of_bigint (2 ^ 1024 - 2 ^ 970 - 1) = 2 ^ 1024 - 2 ^ 971
  /\ Number_of_bigint (2 ^ 1024 - 2 ^ 970) = Infinity
  /\ Number_of_bigint (- 2 ^ 2000) = - Infinity
  /\ floorOfQuotient (2 ^ 63) 1000 = 9223372036854776.
Proof. repeat split; vm_compute; reflexivity. Qed.

(** Rounding keeps the order. *)
Lemma nearestEven_monotone a b den :
  0 < den -> a <= b -> nearestEven a den <= nearestEven b den.
Proof.
  intros Hd Hab.
  assert (a / den <= b / den) as Hq by (apply Z.div_le_mono; lia).
  destruct (Z.eq_dec (a / den) (b / den)) as [E | E].
  - pose proof (Z.div_mod a den ltac:(lia)) as Ha.
    pose proof (Z.div_mod b den ltac:(lia)) as Hb.
    assert (a mod den <= b mod den) as Hr by nia.
    unfold nearestEven. rewrite E.
    destruct (den <? 2 * (a mod den)) eqn:E1; cbn [orb].
    + apply Z.ltb_lt in E1.
      destruct (den <? 2 * (b mod den)) eqn:E2; cbn [orb]; [lia |].
      apply Z.ltb_ge in E2. lia.
    + destruct ((2 * (a mod den) =? den) && Z.odd (b / den)) eqn:E3.
      * apply andb_true_iff in E3 as [E3 Ho]. apply Z.eqb_eq in E3.
        rewrite Ho, andb_true_r.
        destruct (den <? 2 * (b mod den)) eqn:E2; cbn [orb]; [lia |].
        apply Z.ltb_ge in E2.
        assert (2 * (b mod den) = den) as E4 by lia.
        apply Z.eqb_eq in E4. rewrite E4. lia.
      * destruct ((den <? 2 * (b mod den))
                  || (2 * (b mod den) =? den) && Z.odd (b / den)); lia.
  - destruct (nearestEven_cases a den) as [Ea | [Ea _]];
      destruct (nearestEven_cases b den) as [Eb | [Eb _]]; lia.
Qed.

Lemma nearestEven_bounds a den :
  0 < den -> a / den <= nearestEven a den <= a / den + 1.
Proof.
  intros Hd. destruct (nearestEven_cases a den) as [E | [E _]]; lia.
Qed.

(** From [2^53] on the nearest double lies between the powers of two
    around the integer. *)
Lemma nearestDouble_binade a :
  2 ^ 53 <= a ->
  2 ^ Z.log2 a <= nearestDouble a <= 2 ^ (Z.log2 a + 1).
Proof.
  intros Ha. unfold nearestDouble.
  destruct (a <? 2 ^ 53) eqn:E; [apply Z.ltb_lt in E; lia |].
  assert (0 < 2 ^ 53) as H53 by (apply Z.pow_pos_nonneg; lia).
  assert (0 < a) as Hpos by lia.
  assert (53 <= Z.log2 a) as Hl by (apply Z.log2_le_pow2; lia).
  pose proof (Z.log2_spec a Hpos) as [Hlo Hhi].
  set (e := Z.log2 a - 52) in *.
  assert (0 < 2 ^ e) as Hpe by (apply Z.pow_pos_nonneg; lia).
  assert (2 ^ Z.log2 a = 2 ^ 52 * 2 ^ e) as E1.
  { rewrite <- Z.pow_add_r by lia. f_equal. lia. }
  assert (2 ^ Z.succ (Z.log2 a) = 2 ^ 53 * 2 ^ e) as E2.
  { rewrite <- Z.pow_add_r by lia. f_equal. lia. }
  replace (Z.log2 a + 1) with (Z.succ (Z.log2 a)) by lia.
  rewrite E1, E2 in *.
  pose proof (nearestEven_bounds a (2 ^ e) Hpe) as [Hb1 Hb2].
  assert (2 ^ 52 <= a / 2 ^ e) by (apply Z.div_le_lower_bound; lia).
  assert (a / 2 ^ e < 2 ^ 53) by (apply Z.div_lt_upper_bound; lia).
  split; nia.
Qed.

Lemma nearestDouble_monotone a b :
  0 <= a -> a <= b -> nearestDouble a <= nearestDouble b.
Proof.
  intros Ha Hab.
  destruct (Z_lt_le_dec b (2 ^ 53)) as [Hb | Hb].
  - unfold nearestDouble.
    destruct (a <? 2 ^ 53) eqn:E1; [| apply Z.ltb_ge in E1; lia].
    destruct (b <? 2 ^ 53) eqn:E2; [| apply Z.ltb_ge in E2; lia].
    exact Hab.
  - pose proof (nearestDouble_binade b Hb) as [Hb1 _].
    assert (53 <= Z.log2 b) as Hlb by (apply Z.log2_le_pow2; lia).
    assert (2 ^ 53 <= 2 ^ Z.log2 b) by (apply Z.pow_le_mono_r; lia).
    destruct (Z_lt_le_dec a (2 ^ 53)) as [Ha' | Ha'].
    + unfold nearestDouble at 1.
      destruct (a <? 2 ^ 53) eqn:E1; [| apply Z.ltb_ge in E1; lia]. lia.
    + pose proof (nearestDouble_binade a Ha') as [_ Ha2].
      assert (Z.log2 a <= Z.log2 b) as Hl by (apply Z.log2_le_mono; lia).
      destruct (Z.eq_dec (Z.log2 a) (Z.log2 b)) as [E | E].
      * unfold nearestDouble.
        destruct (a <? 2 ^ 53) eqn:E1; [apply Z.ltb_lt in E1; lia |].
        destruct (b <? 2 ^ 53) eqn:E2; [apply Z.ltb_lt in E2; lia |].
        rewrite E.
        assert (0 < 2 ^ (Z.log2 b - 52)) by (apply Z.pow_pos_nonneg; lia).
        apply Z.mul_le_mono_nonneg_r; [lia |].
        apply nearestEven_monotone; lia.
      * assert (2 ^ (Z.log2 a + 1) <= 2 ^ Z.log2 b)
          by (apply Z.pow_le_mono_r; lia).
        lia.
Qed.

(** [Number] keeps the order. *)
Lemma Number_of_bigint_monotone a b :
  a <= b -> Number_of_bigint a <= Number_of_bigint b.
Proof.
  intros Hab. unfold Number_of_bigint.
  assert (0 < Infinity) as Hinf by (apply Z.pow_pos_nonneg; lia).
  pose proof (nearestDouble_nonneg (Z.abs a) (Z.abs_nonneg a)) as Hna.
  pose proof (nearestDouble_nonneg (Z.abs b) (Z.abs_nonneg b)) as Hnb.
  destruct (Z_lt_le_dec a 0) as [Ha | Ha], (Z_lt_le_dec b 0) as [Hb | Hb].
  - pose proof (nearestDouble_monotone (Z.abs b) (Z.abs a)
                  (Z.abs_nonneg b) ltac:(lia)).
    rewrite !Z.sgn_neg by lia. lia.
  - rewrite (Z.sgn_neg a) by lia.
    assert (0 <= Z.sgn b) by (destruct b; cbn; lia). nia.
  - lia.
  - pose proof (nearestDouble_monotone (Z.abs a) (Z.abs b)
                  (Z.abs_nonneg a) ltac:(lia)).
    destruct (Z.eq_dec a 0) as [-> | Hna0].
    + cbn [Z.sgn]. assert (0 <= Z.sgn b) by (destruct b; cbn; lia). nia.
    + rewrite !Z.sgn_pos by lia. lia.
Qed.

(** On safe integers the quotient that is floored is exact. *)
Lemma floorOfQuotient_safe n :
  1000 <= n -> n < 2 ^ 53 -> floorOfQuotient n 1000 = n / 1000.
Proof.
  intros Hlo Hhi. unfold floorOfQuotient.
  assert (1 <= n / 1000) as Ha1 by (apply Z.div_le_lower_bound; lia).
  assert (n / 1000 < 2 ^ 44) as Ha2.
  { apply Z.div_lt_upper_bound; [lia |].
    change (2 ^ 53) with 9007199254740992 in Hhi.
    change (2 ^ 44) with 17592186044416. lia. }
  assert (Z.log2 (n / 1000) < 44) as Hl by (apply Z.log2_lt_pow2; lia).
  pose proof (Z.log2_nonneg (n / 1000)) as Hl0.
  destruct (0 <=? Z.log2 (n / 1000) - 52) eqn:E; [apply Z.leb_le in E; lia |].
  set (k := - (Z.log2 (n / 1000) - 52)).
  assert (9 <= k) as Hk by (unfold k; lia).
  assert (512 <= 2 ^ k) as HP.
  { change 512 with (2 ^ 9). apply Z.pow_le_mono_r; lia. }
  set (P := 2 ^ k) in *.
  pose proof (Z.div_mod n 1000 ltac:(lia)) as Hn.
  pose proof (Z.mod_pos_bound n 1000 ltac:(lia)) as Hb.
  set (a := n / 1000) in *. set (b := n mod 1000) in *.
  pose proof (Z.div_mod (n * P) 1000 ltac:(lia)) as Hq.
  pose proof (Z.mod_pos_bound (n * P) 1000 ltac:(lia)) as Hr.
  destruct (nearestEven_cases (n * P) 1000) as [-> | [-> Hup]].
  - symmetry. apply (Z.div_unique _ _ a ((n * P) / 1000 - a * P)); [| nia].
    left. nia.
  - symmetry. apply (Z.div_unique _ _ a ((n * P) / 1000 + 1 - a * P)); [| nia].
    left. nia.
Qed.

(** ** The monad and the client *)

Lemma bind_Ret {A B} (m : M A) (k : A -> M B) w a w' :
  m w = (Ret a, w') -> bind m k w = k a w'.
Proof. unfold bind; intros ->; reflexivity. Qed.

Lemma bind_Throw {A B} (m : M A) (k : A -> M B) w e w' :
  m w = (Throw e, w') -> bind m k w = (Throw e, w').
Proof. unfold bind; intros ->; reflexivity. Qed.

Lemma bind_Unsettled {A B} (m : M A) (k : A -> M B) w w' :
  m w = (Unsettled, w') -> bind m k w = (Unsettled, w').
Proof. unfold bind; intros ->; reflexivity. Qed.

(** A call of [rpc] posts exactly one request, whatever comes back. *)
Lemma rpc_world {T} `{Answer T} url method params w :
  snd (rpc (T := T) url method params w) = posted w method params.
Proof.
  unfold rpc, posted.
  destruct (answer url _); reflexivity.
Qed.

(** The pure steps leave the world alone. *)
Lemma hexToBigInt_world hex w : snd (hexToBigInt hex w) = w.
Proof. unfold hexToBigInt; destruct (StringToBigInt hex); reflexivity. Qed.

Lemma timestampOf_world b w : snd (timestampOf b w) = w.
Proof.
  unfold timestampOf, bind, hexToBigInt.
  destruct (StringToBigInt _); reflexivity.
Qed.

Lemma timestampOf_Ret b w t w' :
  timestampOf b w = (Ret t, w') ->
  exists z, StringToBigInt (RpcBlock.timestamp b) = Some z
            /\ t = Number_of_bigint z /\ w' = w.
Proof.
  unfold timestampOf, bind, hexToBigInt.
  destruct (StringToBigInt _) as [z |]; cbn; intros E; inversion E.
  exists z; auto.
Qed.

Lemma timestampOf_parsed b z w :
  StringToBigInt (RpcBlock.timestamp b) = Some z ->
  timestampOf b w = (Ret (Number_of_bigint z), w).
Proof.
  unfold timestampOf, bind, hexToBigInt.
  intros ->; reflexivity.
Qed.

Lemma getLatestBlockNumber_world url w :
  snd (getLatestBlockNumber url w) = posted w "eth_blockNumber" [].
Proof.
  unfold getLatestBlockNumber, bind.
  pose proof (rpc_world (T := string) url "eth_blockNumber" [] w) as E.
  destruct (rpc url "eth_blockNumber" [] w) as [[hexNum | e |] w']; cbn in E;
    subst w'; try reflexivity.
  apply hexToBigInt_world.
Qed.

Lemma getBlockByNumber_world url n w :
  snd (getBlockByNumber url n w)
  = posted w "eth_getBlockByNumber" [JString (hexOf n); JBool false].
Proof.
  unfold getBlockByNumber, bind.
  pose proof (rpc_world (T := option RpcBlock.t) url "eth_getBlockByNumber"
                [JString (hexOf n); JBool false] w) as E.
  destruct (rpc url "eth_getBlockByNumber" _ w) as [[[b |] | e |] w'];
    cbn in E; subst w'; reflexivity.
Qed.

(** The body of the loop posts one request, for the block at the
    midpoint, whatever comes back. *)
Lemma probe_world url target v w :
  snd (probe url target v w)
  = posted w "eth_getBlockByNumber"
      [JString (hexOf (midpoint (lo v) (hi v))); JBool false].
Proof.
  unfold probe, bind.
  pose proof (getBlockByNumber_world url (midpoint (lo v) (hi v)) w) as E.
  destruct (getBlockByNumber url _ w) as [[b | e |] w']; cbn in E; subst w';
    try reflexivity.
  pose proof (timestampOf_world b
    (posted w "eth_getBlockByNumber"
       [JString (hexOf (midpoint (lo v) (hi v))); JBool false])) as E.
  destruct (timestampOf b _) as [[t | e |] w']; cbn in E; subst w';
    try reflexivity.
  destruct (t <? target); reflexivity.
Qed.

(** What a successful turn of the loop does to the variables. *)
Lemma probe_Ret url target v w v' w' :
  probe url target v w = (Ret v', w') ->
  exists b t,
    getBlockByNumber url (midpoint (lo v) (hi v)) w = (Ret b, w')
    /\ StringToBigInt (RpcBlock.timestamp b) = Some t
    /\ v' = (if Number_of_bigint t <? target
             then {| lo := midpoint (lo v) (hi v) + 1; hi := hi v;
                     candidate :=
                       Some (Candidate.mk (midpoint (lo v) (hi v))
                               (Number_of_bigint t) (RpcBlock.hash b)) |}
             else {| lo := lo v; hi := midpoint (lo v) (hi v) - 1;
                     candidate := candidate v |}).
Proof.
  unfold probe, bind.
  destruct (getBlockByNumber url _ w) as [[b | e |] w1]; try discriminate.
  destruct (timestampOf b w1) as [[t | e |] w2] eqn:Et; try discriminate.
  apply timestampOf_Ret in Et as (z & Et & -> & ->).
  intros E; exists b, z.
  destruct (Number_of_bigint z <? target); inversion E; subst; auto.
Qed.

Lemma probe_Throw url target v w e w' :
  getBlockByNumber url (midpoint (lo v) (hi v)) w = (Throw e, w') ->
  probe url target v w = (Throw e, w').
Proof. intros E; unfold probe; apply bind_Throw; exact E. Qed.

(** ** Loops *)

(** Total correctness of a loop: an invariant that every turn keeps
    while a measure goes down. *)
Lemma while_total {S} (I : S -> World -> Prop) (mu : S -> nat)
    (cond : S -> bool) (body : S -> M S) :
  (forall s w, I s w -> cond s = true ->
     exists s' w', body s w = (Ret s', w') /\ I s' w'
                   /\ (mu s' < mu s)%nat) ->
  forall fuel s w, I s w -> (mu s < fuel)%nat ->
    exists s' w', while fuel cond body s w = (Ret s', w')
                  /\ I s' w' /\ cond s' = false.
Proof.
  intros Hbody fuel; induction fuel as [| fuel IH]; intros s w Hi Hmu.
  - lia.
  - cbn [while]. destruct (cond s) eqn:Ec.
    + destruct (Hbody s w Hi Ec) as (s1 & w1 & E & Hi1 & Hlt).
      rewrite (bind_Ret _ _ _ _ _ E).
      apply IH; [exact Hi1 | lia].
    + exists s, w; auto.
Qed.

(** Safety of a loop: what every turn keeps true of the world, however
    the turn ends, is true of the world when the loop ends, however it
    ends. *)
Lemma while_safe {S} (I : S -> Prop) (Q : World -> Prop)
    (cond : S -> bool) (body : S -> M S) :
  (forall s w, I s -> Q w -> cond s = true ->
     Q (snd (body s w))
     /\ forall s', fst (body s w) = Ret s' -> I s') ->
  forall fuel s w, I s -> Q w ->
    Q (snd (while fuel cond body s w))
    /\ forall s', fst (while fuel cond body s w) = Ret s' ->
          I s' /\ cond s' = false.
Proof.
  intros Hbody fuel; induction fuel as [| fuel IH]; intros s w Hi Hq.
  - cbn; split; [exact Hq | discriminate].
  - cbn [while]. destruct (cond s) eqn:Ec.
    + destruct (Hbody s w Hi Hq Ec) as [Hq1 Hi1].
      unfold bind. destruct (body s w) as [[s1 | e |] w1]; cbn in *.
      * apply IH; auto.
      * split; [exact Hq1 | discriminate].
      * split; [exact Hq1 | discriminate].
    + cbn; split; [exact Hq |].
      intros s' E; inversion E; subst; auto.
Qed.

(** The loop follows its turns. *)
Lemma while_iterates url target k v w v' w' :
  iterates url target k v w v' w' ->
  forall fuel, (k <= fuel)%nat ->
    while fuel searching (probe url target) v w
    = while (fuel - k) searching (probe url target) v' w'.
Proof.
  induction 1 as [v w | k v w v1 w1 v' w' Hc Hp _ IH]; intros fuel Hk.
  - rewrite Nat.sub_0_r; reflexivity.
  - destruct fuel as [| fuel]; [lia |].
    cbn [while]. rewrite Hc, (bind_Ret _ _ _ _ _ Hp).
    rewrite IH by lia. reflexivity.
Qed.

(** ** The midpoint *)

Lemma midpoint_div lo hi : midpoint lo hi = (lo + hi) / 2.
Proof. unfold midpoint; rewrite Z.shiftr_div_pow2 by lia; reflexivity. Qed.

Lemma midpoint_between lo hi :
  lo <= hi -> lo <= midpoint lo hi <= hi.
Proof. rewrite midpoint_div; intros; Z.div_mod_to_equations; lia. Qed.

(** Either way the turn goes, at most half of the heights are left. *)
Lemma midpoint_halves lo hi :
  lo <= hi ->
  hi - (midpoint lo hi + 1) + 1 <= (hi - lo + 1) / 2
  /\ (midpoint lo hi - 1) - lo + 1 <= (hi - lo + 1) / 2.
Proof. rewrite midpoint_div; intros; Z.div_mod_to_equations; lia. Qed.

Lemma probesBound_mono a b : a <= b -> (probesBound a <= probesBound b)%nat.
Proof.
  unfold probesBound; intros Hab.
  destruct (a <=? 0) eqn:Ea; [lia |].
  destruct (b <=? 0) eqn:Eb; [lia |].
  apply Z.leb_gt in Ea.
  pose proof (Z.log2_le_mono a b Hab).
  pose proof (Z.log2_nonneg a). lia.
Qed.

Lemma probesBound_half n : 0 < n -> (probesBound (n / 2) < probesBound n)%nat.
Proof.
  unfold probesBound; intros Hn.
  destruct (n <=? 0) eqn:En; [lia |].
  destruct (n / 2 <=? 0) eqn:Eh; [lia |].
  apply Z.leb_gt in Eh.
  assert (Z.log2 (n / 2) = Z.log2 n - 1) as ->.
  { rewrite <- Z.div2_div, Z.div2_spec, Z.log2_shiftr by lia.
    apply Z.max_r. assert (2 <= n) by (Z.div_mod_to_equations; lia).
    pose proof (Z.log2_le_mono 2 n ltac:(lia)) as Hl. cbn in Hl. lia. }
  pose proof (Z.log2_nonneg (n / 2)).
  assert (1 <= Z.log2 n).
  { assert (2 <= n) by (Z.div_mod_to_equations; lia).
    pose proof (Z.log2_le_mono 2 n ltac:(lia)) as Hl. cbn in Hl. lia. }
  lia.
Qed.

(** ** The oracles over a chain *)

Lemma run_eq {A} (m : M A) w : m w = (fst (m w), snd (m w)).
Proof. apply surjective_pairing. Qed.

Lemma Serves_Total url latestNum chain ts :
  Serves url latestNum chain ts -> Total url latestNum.
Proof.
  intros (Hl & Hb & Ht); split; [exact Hl |].
  intros w h Hh; exists (chain h), (ts h); auto.
Qed.

Lemma latest_served url latestNum w :
  Total url latestNum ->
  getLatestBlockNumber url w = (Ret latestNum, posted w "eth_blockNumber" []).
Proof.
  intros [Hl _]. rewrite (run_eq (getLatestBlockNumber url) w).
  rewrite Hl, getLatestBlockNumber_world; reflexivity.
Qed.

Lemma block_served url n w b :
  fst (getBlockByNumber url n w) = Ret b ->
  getBlockByNumber url n w
  = (Ret b, posted w "eth_getBlockByNumber" (blockParams n)).
Proof.
  intros E. rewrite (run_eq (getBlockByNumber url n) w).
  rewrite E, getBlockByNumber_world; reflexivity.
Qed.

(** A turn of the loop over a block that is there. *)
Lemma probe_served url target v w b t :
  fst (getBlockByNumber url (midpoint (lo v) (hi v)) w) = Ret b ->
  StringToBigInt (RpcBlock.timestamp b) = Some t ->
  probe url target v w
  = (Ret (turn target v (Number_of_bigint t) (RpcBlock.hash b)),
     posted w "eth_getBlockByNumber" (blockParams (midpoint (lo v) (hi v)))).
Proof.
  intros Eb Et. unfold probe.
  rewrite (bind_Ret _ _ _ _ _ (block_served _ _ _ _ Eb)).
  rewrite (bind_Ret _ _ _ _ _ (timestampOf_parsed _ _ _ Et)).
  unfold turn. destruct (Number_of_bigint t <? target); reflexivity.
Qed.

Lemma turn_span target v t h :
  searching v = true -> span (turn target v t h) <= span v / 2.
Proof.
  unfold searching, span, turn; intros Hc; apply Z.leb_le in Hc.
  destruct (midpoint_halves _ _ Hc) as [Hup Hdown].
  destruct (t <? target); cbn [lo hi]; lia.
Qed.

Lemma turn_range target v t h latestNum :
  searching v = true -> 0 <= lo v -> hi v <= latestNum ->
  0 <= lo (turn target v t h) /\ hi (turn target v t h) <= latestNum.
Proof.
  unfold searching, turn; intros Hc Hlo Hhi; apply Z.leb_le in Hc.
  pose proof (midpoint_between _ _ Hc).
  destruct (t <? target); cbn [lo hi]; lia.
Qed.

Lemma posted_length w method params :
  length (sent (posted w method params)) = S (length (sent w)).
Proof. unfold posted; cbn. rewrite length_app; cbn; lia. Qed.

(** ** Termination *)

(** Over a total oracle the loop ends, within a number of turns
    logarithmic in the heights in play, each turn being one request. *)
Lemma search_ends url latestNum target :
  Total url latestNum ->
  forall fuel v w,
    0 <= lo v -> hi v <= latestNum ->
    (probesBound (span v) < fuel)%nat ->
    exists v' w',
      while fuel searching (probe url target) v w = (Ret v', w')
      /\ searching v' = false
      /\ (length (sent w') <= length (sent w) + probesBound (span v))%nat.
Proof.
  intros [_ Hb] fuel v w Hlo Hhi Hfuel.
  destruct (while_total
    (fun s w' => 0 <= lo s /\ hi s <= latestNum
       /\ (length (sent w') + probesBound (span s)
            <= length (sent w) + probesBound (span v))%nat)
    (fun s => probesBound (span s)) searching (probe url target))
    with (fuel := fuel) (s := v) (w := w)
    as (v' & w' & E & (_ & _ & Hn) & Hc); auto.
  - intros s w0 (Hlo0 & Hhi0 & Hn) Hc.
    assert (Hc' := Hc); unfold searching in Hc'; apply Z.leb_le in Hc'.
    pose proof (midpoint_between _ _ Hc') as Hm.
    destruct (Hb w0 (midpoint (lo s) (hi s)) ltac:(lia)) as (b & t & Eb & Et).
    exists (turn target s (Number_of_bigint t) (RpcBlock.hash b)),
      (posted w0 "eth_getBlockByNumber"
         (blockParams (midpoint (lo s) (hi s)))).
    split; [apply probe_served; assumption |].
    assert (probesBound
              (span (turn target s (Number_of_bigint t) (RpcBlock.hash b)))
            < probesBound (span s))%nat as Hlt.
    { eapply Nat.le_lt_trans;
        [apply probesBound_mono, turn_span; exact Hc |].
      apply probesBound_half; unfold span; lia. }
    pose proof (turn_range target s (Number_of_bigint t) (RpcBlock.hash b)
                  latestNum Hc Hlo0 Hhi0).
    rewrite posted_length. repeat split; try tauto; lia.
  - exists v', w'; repeat split; auto; lia.
Qed.

(** ** Correctness of the search *)

Lemma find_unfold fuel url target w latestNum w1 latest w2 latestTs :
  getLatestBlockNumber url w = (Ret latestNum, w1) ->
  getBlockByNumber url latestNum w1 = (Ret latest, w2) ->
  StringToBigInt (RpcBlock.timestamp latest) = Some latestTs ->
  findBlockBeforeDate fuel url target w
  = (if target <=? 0 then ret None
     else if Number_of_bigint latestTs <? target then
       ret (Some (Found.mk (Number_of_bigint latestNum)
                    (RpcBlock.hash latest) (Number_of_bigint latestTs)))
     else
       v <- while fuel searching (probe url target) (entry latestNum) ;;
       ret (conclude v)) w2.
Proof.
  intros El Eb Et. unfold findBlockBeforeDate.
  rewrite (bind_Ret _ _ _ _ _ El), (bind_Ret _ _ _ _ _ Eb).
  rewrite (bind_Ret _ _ _ _ _ (timestampOf_parsed _ _ _ Et)).
  reflexivity.
Qed.

Lemma entry_Bracketed latestNum chain ts target :
  0 <= latestNum -> target <= ts latestNum ->
  nondecreasing ts latestNum ->
  Bracketed latestNum chain ts target (entry latestNum).
Proof.
  intros HL Ht Hmono; unfold Bracketed, entry; cbn.
  repeat split; try lia.
Qed.

Lemma turn_Bracketed latestNum chain ts target v :
  nondecreasing ts latestNum ->
  Bracketed latestNum chain ts target v ->
  searching v = true ->
  Bracketed latestNum chain ts target
    (turn target v (ts (midpoint (lo v) (hi v)))
       (RpcBlock.hash (chain (midpoint (lo v) (hi v))))).
Proof.
  intros Hmono (Hlo & Hle & Hhi & Hbelow & Habove & Hcand) Hc.
  unfold searching in Hc; apply Z.leb_le in Hc.
  pose proof (midpoint_between _ _ Hc) as Hm.
  unfold Bracketed, turn.
  destruct (ts (midpoint (lo v) (hi v)) <? target) eqn:Elt;
    cbn [lo hi candidate Candidate.n Candidate.ts Candidate.hash].
  - apply Z.ltb_lt in Elt.
    repeat split; try lia; auto.
    intros h Hh.
    pose proof (Hmono h (midpoint (lo v) (hi v))
                  ltac:(lia) ltac:(lia) ltac:(lia)). lia.
  - apply Z.ltb_ge in Elt.
    repeat split; try lia; auto.
    intros h Hh.
    pose proof (Hmono (midpoint (lo v) (hi v)) h
                  ltac:(lia) ltac:(lia) ltac:(lia)). lia.
Qed.

(** Over a chain with non-decreasing timestamps the loop ends with the
    bracket closed: [lo = hi + 1]. *)
Lemma search_brackets url latestNum chain ts target :
  Serves url latestNum chain ts ->
  nondecreasing (readAs ts) latestNum ->
  forall fuel v w,
    Bracketed latestNum chain (readAs ts) target v ->
    (probesBound (span v) < fuel)%nat ->
    exists v' w',
      while fuel searching (probe url target) v w = (Ret v', w')
      /\ Bracketed latestNum chain (readAs ts) target v'
      /\ lo v' = hi v' + 1.
Proof.
  intros (_ & Hb & Ht) Hmono fuel v w Hv Hfuel.
  assert (Hstep : forall s w0,
    Bracketed latestNum chain (readAs ts) target s -> searching s = true ->
    exists s' w1, probe url target s w0 = (Ret s', w1)
      /\ Bracketed latestNum chain (readAs ts) target s'
      /\ (probesBound (span s') < probesBound (span s))%nat).
  { intros s w0 Hs Hc.
    assert (Hc' := Hc); unfold searching in Hc'; apply Z.leb_le in Hc'.
    pose proof (midpoint_between _ _ Hc') as Hm.
    assert (0 <= midpoint (lo s) (hi s) <= latestNum) as Hin
      by (unfold Bracketed in Hs; lia).
    eexists _, _; split.
    { apply probe_served; [apply Hb, Hin | apply Ht, Hin]. }
    split; [apply (turn_Bracketed latestNum chain (readAs ts)); assumption |].
    eapply Nat.le_lt_trans;
      [apply probesBound_mono, turn_span; exact Hc |].
    apply probesBound_half; unfold span; lia. }
  destruct (while_total
    (fun s (_ : World) => Bracketed latestNum chain (readAs ts) target s)
    (fun s => probesBound (span s)) searching (probe url target)
    Hstep fuel v w Hv Hfuel) as (v' & w' & E & Hv' & Hc).
  exists v', w'; split; [exact E | split; [exact Hv' |]].
  unfold searching in Hc; apply Z.leb_gt in Hc.
  unfold Bracketed in Hv'; lia.
Qed.

(** The whole search over such a chain, for a target within the chain. *)
Lemma find_brackets url latestNum chain ts target fuel w :
  0 <= latestNum ->
  Serves url latestNum chain ts ->
  nondecreasing (readAs ts) latestNum ->
  0 < target <= readAs ts latestNum ->
  (probesBound (latestNum + 1) < fuel)%nat ->
  exists v w',
    findBlockBeforeDate fuel url target w = (Ret (conclude v), w')
    /\ Bracketed latestNum chain (readAs ts) target v
    /\ lo v = hi v + 1.
Proof.
  intros HL Hs Hmono [Hpos Hle] Hfuel.
  pose proof (Serves_Total _ _ _ _ Hs) as Htot.
  destruct Hs as (Hl & Hb & Ht).
  rewrite (find_unfold fuel url target w latestNum _ (chain latestNum) _
             (ts latestNum) (latest_served _ _ w Htot)
             (block_served _ _ _ _ (Hb _ latestNum ltac:(lia)))
             (Ht latestNum ltac:(lia))).
  destruct (target <=? 0) eqn:E0; [apply Z.leb_le in E0; lia |].
  change (Number_of_bigint (ts latestNum)) with (readAs ts latestNum).
  destruct (readAs ts latestNum <? target) eqn:E1;
    [apply Z.ltb_lt in E1; lia |].
  edestruct (search_brackets url latestNum chain ts target)
    with (fuel := fuel) (v := entry latestNum)
    as (v & w' & E & Hv & Hx); eauto.
  - repeat split; assumption.
  - apply entry_Bracketed; assumption.
  - unfold span, entry; cbn.
    replace (latestNum - 0 + 1) with (latestNum + 1) by lia. exact Hfuel.
  - exists v, w'. rewrite (bind_Ret _ _ _ _ _ E). auto.
Qed.

(** ** The bound on the turns *)



(** ** The example chain *)

Ltac upto5 h :=
  let C := fresh "C" in
  assert (h = 0 \/ h = 1 \/ h = 2 \/ h = 3 \/ h = 4 \/ h = 5) as C by lia;
  destruct C as [-> | [-> | [-> | [-> | [-> | ->]]]]].



(** ** The claims about the search *)










(** ** Hex quantities *)

Lemma digit_not_space radix c :
  isWhiteSpace c = true -> digitValue radix c = None.
Proof.
  destruct c as [[] [] [] [] [] [] [] []]; vm_compute;
    intros E; try discriminate E; reflexivity.
Qed.

Lemma digitValue_nonneg radix c d : digitValue radix c = Some d -> 0 <= d.
Proof.
  unfold digitValue.
  set (n := Z.of_nat (nat_of_ascii c)).
  destruct ((48 <=? n) && (n <=? 57)) eqn:E1;
    [| destruct ((97 <=? n) && (n <=? 122)) eqn:E2;
       [| destruct ((65 <=? n) && (n <=? 90)) eqn:E3; [| discriminate]]];
    match goal with
    | |- context [?d <? radix] => destruct (d <? radix); [| discriminate]
    end;
    intros E; inversion E; subst; lia.
Qed.

Lemma digitsValueFrom_nonneg radix s :
  0 <= radix ->
  forall acc z, 0 <= acc -> digitsValueFrom radix acc s = Some z -> 0 <= z.
Proof.
  intros Hr; induction s as [| c s IH]; cbn; intros acc z Hacc E.
  - inversion E; subst; exact Hacc.
  - destruct (digitValue radix c) as [d |] eqn:Ed; [| discriminate].
    apply digitValue_nonneg in Ed.
    apply (IH (radix * acc + d)); [nia | exact E].
Qed.

Lemma digits_trimEnd radix s :
  forall acc z, digitsValueFrom radix acc s = Some z -> trimEnd s = s.
Proof.
  induction s as [| c s IH]; cbn; intros acc z E; [reflexivity |].
  destruct (digitValue radix c) as [d |] eqn:Ed; [| discriminate].
  rewrite (IH _ _ E).
  destruct s; [| reflexivity].
  destruct (isWhiteSpace c) eqn:Ew; [| reflexivity].
  rewrite (digit_not_space radix c Ew) in Ed; discriminate.
Qed.

Lemma trimEnd_cons c s :
  trimEnd s = s -> s <> EmptyString -> trimEnd (String c s) = String c s.
Proof.
  intros E Hs. cbn [trimEnd]. rewrite E.
  destruct s; [congruence | reflexivity].
Qed.

Lemma hexQuantity_shape s :
  isHexQuantity s = true ->
  exists ds v, s = String "0" (String "x" ds)
               /\ digitsValue 16 ds = Some v.
Proof.
  unfold isHexQuantity.
  destruct s as [| c0 s]; [discriminate |].
  destruct c0 as [[] [] [] [] [] [] [] []]; try discriminate.
  destruct s as [| c1 ds]; [discriminate |].
  destruct c1 as [[] [] [] [] [] [] [] []]; try discriminate.
  destruct (digitsValue 16 ds) as [v |] eqn:Ev; [| discriminate].
  intros _; exists ds, v; auto.
Qed.

(** A hex quantity reads as a number that is not negative. *)
Lemma hexQuantity_nonneg s z :
  isHexQuantity s = true -> StringToBigInt s = Some z -> 0 <= z.
Proof.
  intros Hs. destruct (hexQuantity_shape s Hs) as (ds & v & -> & Ev).
  unfold digitsValue in Ev. destruct ds as [| d ds]; [discriminate |].
  unfold StringToBigInt, trim.
  change (trimStart (String "0" (String "x" (String d ds))))
    with (String "0" (String "x" (String d ds))).
  assert (trimEnd (String "0" (String "x" (String d ds)))
          = String "0" (String "x" (String d ds))) as ->.
  { repeat (apply trimEnd_cons; [| discriminate]).
    exact (digits_trimEnd 16 _ _ _ Ev). }
  cbn [digitsValue]. rewrite Ev. intros E; inversion E; subst.
  apply (digitsValueFrom_nonneg 16 _ ltac:(lia) 0 z ltac:(lia) Ev).
Qed.

(** The digits that [toString(16)] writes read back as the number. *)
Lemma digits_of_pos :
  forall p rest,
    digitsValueFrom 16 0 (HexString.Raw.of_pos p rest)
    = digitsValueFrom 16 (Zpos p) rest.
Proof.
  fix IH 1. intros p rest.
  do 4 try destruct p as [p | p |]; try reflexivity;
    cbn [HexString.Raw.of_pos]; rewrite IH; reflexivity.
Qed.

(** The hex of a height that is not negative is a hex quantity, and
    [BigInt] reads the height back from it. *)
Lemma StringToBigInt_hexOf n :
  0 <= n ->
  StringToBigInt (hexOf n) = Some n /\ isHexQuantity (hexOf n) = true.
Proof.
  intros Hn. destruct n as [| p | p]; [split; reflexivity | | lia].
  pose proof (digits_of_pos p EmptyString) as E. cbn [digitsValueFrom] in E.
  unfold hexOf, toString16.
  change ("0x" ++ HexString.Raw.of_pos p EmptyString)%string
    with (String "0" (String "x" (HexString.Raw.of_pos p EmptyString))).
  destruct (HexString.Raw.of_pos p EmptyString) as [| d ds] eqn:Ep;
    [discriminate E |].
  split.
  - unfold StringToBigInt, trim.
    change (trimStart (String "0" (String "x" (String d ds))))
      with (String "0" (String "x" (String d ds))).
    assert (trimEnd (String "0" (String "x" (String d ds)))
            = String "0" (String "x" (String d ds))) as ->.
    { repeat (apply trimEnd_cons; [| discriminate]).
      exact (digits_trimEnd 16 _ _ _ E). }
    exact E.
  - unfold isHexQuantity, digitsValue. rewrite E. reflexivity.
Qed.

(** The test endpoint reads back the height that a request asks for. *)
Lemma heightOfParams_blockParams h :
  0 <= h -> heightOfParams (blockParams h) = Some h.
Proof. intros Hh; apply (StringToBigInt_hexOf h Hh). Qed.

(** ** The fast paths *)

Lemma latest_fetched url w latestNum :
  fst (getLatestBlockNumber url w) = Ret latestNum ->
  getLatestBlockNumber url w
  = (Ret latestNum, posted w "eth_blockNumber" []).
Proof.
  intros E. rewrite (run_eq (getLatestBlockNumber url) w).
  rewrite E, getLatestBlockNumber_world; reflexivity.
Qed.

(** The search once its two opening fetches have succeeded. *)
Lemma find_opened fuel url target w latestNum latest latestTs :
  fst (getLatestBlockNumber url w) = Ret latestNum ->
  fst (getBlockByNumber url latestNum (posted w "eth_blockNumber" []))
  = Ret latest ->
  StringToBigInt (RpcBlock.timestamp latest) = Some latestTs ->
  findBlockBeforeDate fuel url target w
  = (if target <=? 0 then ret None
     else if Number_of_bigint latestTs <? target then
       ret (Some (Found.mk (Number_of_bigint latestNum)
                    (RpcBlock.hash latest) (Number_of_bigint latestTs)))
     else
       v <- while fuel searching (probe url target) (entry latestNum) ;;
       ret (conclude v)) (opened w latestNum).
Proof.
  intros El Eb Et.
  exact (find_unfold fuel url target w _ _ _ _ _
           (latest_fetched _ _ _ El) (block_served _ _ _ _ Eb) Et).
Qed.

(** C2, as the code has it: whenever the latest height and the latest
    block are served, a target above zero and strictly above the latest
    timestamp, as [Number] reads it, returns the latest block: its
    height and its timestamp as [Number] converts them, and its hash;
    when the latest height and timestamp are safe integers these are the
    height and the timestamp themselves.  The loop is not entered: the
    result does not depend on the bound on its turns, and the two
    opening requests are all that is posted. *)
Theorem target_after_latest_returns_latest
    fuel url target w latestNum latest latestTs :
  fst (getLatestBlockNumber url w) = Ret latestNum ->
  fst (getBlockByNumber url latestNum (posted w "eth_blockNumber" []))
  = Ret latest ->
  StringToBigInt (RpcBlock.timestamp latest) = Some latestTs ->
  0 < target ->
  (Number_of_bigint latestTs < target ->
     findBlockBeforeDate fuel url target w
     = (Ret (Some (Found.mk (Number_of_bigint latestNum)
                     (RpcBlock.hash latest) (Number_of_bigint latestTs))),
        opened w latestNum))
  /\ (isSafe latestNum -> isSafe latestTs -> latestTs < target ->
      findBlockBeforeDate fuel url target w
      = (Ret (Some (Found.mk latestNum (RpcBlock.hash latest) latestTs)),
         opened w latestNum)).
Proof.
  intros El Eb Et Hpos.
  assert (Hread : Number_of_bigint latestTs < target ->
    findBlockBeforeDate fuel url target w
    = (Ret (Some (Found.mk (Number_of_bigint latestNum)
                    (RpcBlock.hash latest) (Number_of_bigint latestTs))),
       opened w latestNum)).
  { intros Hlt.
    rewrite (find_opened fuel url target w _ _ _ El Eb Et).
    destruct (target <=? 0) eqn:E0; [apply Z.leb_le in E0; lia |].
    destruct (Number_of_bigint latestTs <? target) eqn:E1;
      [| apply Z.ltb_ge in E1; lia].
    reflexivity. }
  split; [exact Hread |].
  intros HsL HsT Hlt.
  rewrite Hread by (rewrite (Number_of_safe latestTs HsT); exact Hlt).
  rewrite (Number_of_safe latestNum HsL), (Number_of_safe latestTs HsT).
  reflexivity.
Qed.

Lemma target_after_latest_returns_latest_witness :
  findBlockBeforeDate 0 wideChain (2 ^ 53 + 10) initialWorld
  = (Ret (Some (Found.mk 2 "block-2" (2 ^ 53 + 8))), opened initialWorld 2)
  /\ findBlockBeforeDate 0 exampleChain 1000 initialWorld
     = (Ret (Some (Found.mk 5 "block-5" 500)), opened initialWorld 5).
Proof.
  split.
  - apply (proj1 (target_after_latest_returns_latest 0 wideChain
                    (2 ^ 53 + 10) initialWorld 2 (wideBlock 2) (2 ^ 53 + 7)
                    eq_refl eq_refl eq_refl eq_refl)).
    vm_compute; reflexivity.
  - apply (proj2 (target_after_latest_returns_latest 0 exampleChain 1000
                    initialWorld 5 (exampleBlock 5) 500
                    eq_refl eq_refl eq_refl eq_refl)).
    + vm_compute; discriminate.
    + vm_compute; discriminate.
    + lia.
Defined.

(** The claim of C2 as it is worded, for every chain and target, fails
    twice: a target at or below zero returns nothing, also above a latest
    timestamp that is below it (a block stamped -5, the target -3); and
    beyond the safe integers a latest timestamp below the target may
    read as the target, so that the loop runs and returns an earlier
    block (latest timestamp [2^53 + 7], target [2^53 + 8]). *)
Lemma target_after_latest_may_miss_latest :
  ~ ReturnsLatest 4 earlyChain (-3) initialWorld
  /\ ~ ReturnsLatest 4 wideChain (2 ^ 53 + 8) initialWorld.
Proof.
  split; intros H.
  - specialize (H 0 (RpcBlock.mk "0x0" "-5" "block-0" "none") (-5)
                  eq_refl eq_refl eq_refl ltac:(lia)).
    vm_compute in H. discriminate H.
  - specialize (H 2 (wideBlock 2) (2 ^ 53 + 7)
                  eq_refl eq_refl eq_refl ltac:(lia)).
    vm_compute in H. discriminate H.
Qed.

(** C3: whenever the latest height and the latest block are served, a
    target at or below zero returns nothing, whatever the blocks hold:
    the loop is not entered and the two opening requests, for the latest
    height and for the latest block, are all that is posted. *)
Theorem target_at_or_before_epoch_returns_nothing
    fuel url target w latestNum latest latestTs :
  fst (getLatestBlockNumber url w) = Ret latestNum ->
  fst (getBlockByNumber url latestNum (posted w "eth_blockNumber" []))
  = Ret latest ->
  StringToBigInt (RpcBlock.timestamp latest) = Some latestTs ->
  target <= 0 ->
  findBlockBeforeDate fuel url target w = (Ret None, opened w latestNum).
Proof.
  intros El Eb Et Hle.
  rewrite (find_opened fuel url target w _ _ _ El Eb Et).
  destruct (target <=? 0) eqn:E0; [reflexivity | apply Z.leb_gt in E0; lia].
Qed.

Lemma target_at_or_before_epoch_returns_nothing_witness :
  findBlockBeforeDate 0 exampleChain 0 initialWorld
  = (Ret None, opened initialWorld 5).
Proof.
  apply (target_at_or_before_epoch_returns_nothing 0 exampleChain 0
           initialWorld 5 (exampleBlock 5) 500).
  - reflexivity.
  - reflexivity.
  - reflexivity.
  - lia.
Defined.

(** ** The claims about the loop *)

(** C7: every turn of the loop, entered with [lo <= hi], moves [lo] to
    [mid + 1] or [hi] to [mid - 1] and so strictly shrinks the interval;
    over an oracle that is total up to a non-negative latest height the
    loop ends with [lo > hi], and so does the search, after at most
    [floor (log2 (latestNum + 1)) + 1] turns, each of one request, on
    top of the two opening requests. *)
Theorem search_terminates_in_logarithmic_probes :
  (forall url target v w v' w',
     searching v = true ->
     probe url target v w = (Ret v', w') ->
     (lo v' = midpoint (lo v) (hi v) + 1 /\ hi v' = hi v
      \/ lo v' = lo v /\ hi v' = midpoint (lo v) (hi v) - 1)
     /\ hi v' - lo v' < hi v - lo v)
  /\ (forall url latestNum target fuel w,
        0 <= latestNum ->
        Total url latestNum ->
        (probesBound (latestNum + 1) < fuel)%nat ->
        (exists v' w',
           while fuel searching (probe url target) (entry latestNum) w
           = (Ret v', w')
           /\ hi v' < lo v'
           /\ (length (sent w')
               <= length (sent w) + probesBound (latestNum + 1))%nat)
        /\ (exists r w',
              findBlockBeforeDate fuel url target w = (Ret r, w')
              /\ (length (sent w')
                  <= length (sent w) + 2 + probesBound (latestNum + 1))%nat))
  /\ (forall latestNum,
        0 <= latestNum ->
        Z.of_nat (probesBound (latestNum + 1)) = Z.log2 (latestNum + 1) + 1).
Proof.
  split; [| split].
  - intros url target v w v' w' Hc Hp.
    apply probe_Ret in Hp as (b & t & _ & _ & ->).
    unfold searching in Hc; apply Z.leb_le in Hc.
    pose proof (midpoint_between _ _ Hc).
    destruct (Number_of_bigint t <? target); cbn [lo hi]; split; auto; lia.
  - intros url latestNum target fuel w HL Htot Hfuel.
    assert (Hloop : forall w0, exists v' w',
      while fuel searching (probe url target) (entry latestNum) w0
      = (Ret v', w')
      /\ hi v' < lo v'
      /\ (length (sent w')
          <= length (sent w0) + probesBound (latestNum + 1))%nat).
    { intros w0.
      destruct (search_ends url latestNum target Htot fuel
                  (entry latestNum) w0) as (v' & w' & E & Hc & Hn).
      - cbn; lia.
      - cbn; lia.
      - unfold span, entry; cbn [lo hi].
        replace (latestNum - 0 + 1) with (latestNum + 1) by lia.
        exact Hfuel.
      - exists v', w'. split; [exact E |].
        unfold searching in Hc; apply Z.leb_gt in Hc.
        split; [exact Hc |].
        unfold span, entry in Hn; cbn [lo hi] in Hn.
        replace (latestNum - 0 + 1) with (latestNum + 1) in Hn by lia.
        exact Hn. }
    split; [apply Hloop |].
    destruct (proj2 Htot (posted w "eth_blockNumber" []) latestNum
                ltac:(lia)) as (latest & latestTs & Eb & Et).
    rewrite (find_unfold fuel url target w latestNum _ latest _ latestTs
               (latest_served _ _ w Htot) (block_served _ _ _ _ Eb) Et).
    set (w2 := posted (posted w "eth_blockNumber" []) _ _).
    assert (length (sent w2) = (length (sent w) + 2)%nat) as Hw2.
    { unfold w2. rewrite !posted_length. lia. }
    destruct (target <=? 0); [eexists _, _; split; [reflexivity | lia] |].
    destruct (Number_of_bigint latestTs <? target);
      [eexists _, _; split; [reflexivity | lia] |].
    destruct (Hloop w2) as (v' & w' & E & _ & Hn).
    exists (conclude v'), w'.
    rewrite (bind_Ret _ _ _ _ _ E). split; [reflexivity | lia].
  - intros latestNum HL. unfold probesBound.
    destruct (latestNum + 1 <=? 0) eqn:E; [apply Z.leb_le in E; lia |].
    pose proof (Z.log2_nonneg (latestNum + 1)). lia.
Qed.

Lemma search_terminates_in_logarithmic_probes_witness :
  (exists v' w',
     while 4 searching (probe exampleChain 250) (entry 5) initialWorld
     = (Ret v', w')
     /\ hi v' < lo v'
     /\ (length (sent w')
         <= length (sent initialWorld) + probesBound (5 + 1))%nat)
  /\ (exists r w',
        findBlockBeforeDate 4 exampleChain 250 initialWorld = (Ret r, w')
        /\ (length (sent w')
            <= length (sent initialWorld) + 2 + probesBound (5 + 1))%nat).
Proof.
  apply (proj1 (proj2 search_terminates_in_logarithmic_probes)
           exampleChain 5 250 4%nat initialWorld).
  - lia.
  - split; [intros ?; reflexivity |].
    intros ? h ?; upto5 h; eexists _, _; split; reflexivity.
  - vm_compute; lia.
Defined.

(** C8: at every turn the block asked for is the one at the floor of the
    mean of the bounds, [floor ((lo + hi) / 2)]: the shift by one bit of
    the unbounded sum is that floor, for all bounds, so no width is
    there to overflow. *)
Theorem probe_is_floor_of_mean url target v w :
  midpoint (lo v) (hi v) = Z.shiftr (lo v + hi v) 1
  /\ midpoint (lo v) (hi v) = (lo v + hi v) / 2
  /\ 2 * midpoint (lo v) (hi v) <= lo v + hi v
     < 2 * midpoint (lo v) (hi v) + 2
  /\ snd (probe url target v w)
     = posted w "eth_getBlockByNumber"
         (blockParams ((lo v + hi v) / 2)).
Proof.
  split; [reflexivity |].
  split; [apply midpoint_div |].
  split.
  - rewrite midpoint_div. Z.div_mod_to_equations; lia.
  - rewrite probe_world, midpoint_div. reflexivity.
Qed.

(** ** The heights asked for *)

Lemma iterates_range url target latestNum k v w v' w' :
  iterates url target k v w v' w' ->
  0 <= lo v /\ lo v <= hi v + 1 /\ hi v <= latestNum ->
  0 <= lo v' /\ lo v' <= hi v' + 1 /\ hi v' <= latestNum.
Proof.
  induction 1 as [v w | k v w v1 w1 v' w' Hc Hp _ IH]; [tauto |].
  intros Hv. apply IH.
  apply probe_Ret in Hp as (b & t & _ & _ & ->).
  unfold searching in Hc; apply Z.leb_le in Hc.
  pose proof (midpoint_between _ _ Hc).
  destruct (Number_of_bigint t <? target); cbn [lo hi]; lia.
Qed.

Lemma posted_InRange latestNum w0 w h :
  0 <= h <= latestNum ->
  (exists reqs, sent w = (sent w0 ++ reqs)%list /\ Forall (InRange latestNum) reqs) ->
  exists reqs,
    sent (posted w "eth_getBlockByNumber" (blockParams h))
    = (sent w0 ++ reqs)%list
    /\ Forall (InRange latestNum) reqs.
Proof.
  intros Hh (reqs & E & Hall).
  exists (reqs ++ [mkRequest "2.0" (rpcId w) "eth_getBlockByNumber"
                     (blockParams h)])%list.
  unfold posted; cbn [sent]. rewrite E, <- app_assoc. split; [reflexivity |].
  apply Forall_app; split; [exact Hall |].
  constructor; [| constructor].
  exists h; cbn; auto.
Qed.

(** C10: once the latest height, not negative, is known, the bounds of
    the loop satisfy [0 <= lo] and [hi <= latestNum] (and
    [lo <= hi + 1]) on entry and after every turn, and every request
    posted from then on, by the opening fetch and by the turns, however
    the endpoint answers and however the search ends, asks for a block
    at a height between 0 and the latest. *)
Theorem probes_stay_within_chain fuel url target w latestNum :
  fst (getLatestBlockNumber url w) = Ret latestNum ->
  0 <= latestNum ->
  (forall k w2 v' w', iterates url target k (entry latestNum) w2 v' w' ->
     0 <= lo v' /\ lo v' <= hi v' + 1 /\ hi v' <= latestNum)
  /\ exists reqs,
       sent (snd (findBlockBeforeDate fuel url target w))
       = (sent (posted w "eth_blockNumber" []) ++ reqs)%list
       /\ Forall (InRange latestNum) reqs.
Proof.
  intros El HL. apply latest_fetched in El.
  set (w1 := posted w "eth_blockNumber" []) in *.
  split.
  - intros k w2 v' w' Hit.
    apply (iterates_range _ _ latestNum _ _ _ _ _ Hit). cbn; lia.
  - assert (Hopen : exists reqs,
      sent (posted w1 "eth_getBlockByNumber" (blockParams latestNum))
      = (sent w1 ++ reqs)%list /\ Forall (InRange latestNum) reqs).
    { apply posted_InRange; [lia |].
      exists []; rewrite app_nil_r; auto. }
    unfold findBlockBeforeDate.
    rewrite (bind_Ret _ _ _ _ _ El).
    unfold bind at 1.
    pose proof (getBlockByNumber_world url latestNum w1) as Hw.
    destruct (getBlockByNumber url latestNum w1) as [[latest | e |] w2];
      cbn [snd] in Hw |- *; subst w2; try exact Hopen.
    unfold bind at 1.
    pose proof (timestampOf_world latest
      (posted w1 "eth_getBlockByNumber" (blockParams latestNum))) as Hw.
    destruct (timestampOf latest _) as [[latestTs | e |] w3];
      cbn [snd] in Hw |- *; subst w3; try exact Hopen.
    destruct (target <=? 0); [exact Hopen |].
    destruct (latestTs <? target); [exact Hopen |].
    destruct (while_safe
      (fun v => 0 <= lo v /\ hi v <= latestNum)
      (fun w' => exists reqs, sent w' = (sent w1 ++ reqs)%list
                              /\ Forall (InRange latestNum) reqs)
      searching (probe url target)) with (fuel := fuel)
      (s := entry latestNum)
      (w := posted w1 "eth_getBlockByNumber" (blockParams latestNum))
      as [Hq _].
    + intros s w0 [Hlo Hhi] Hq Hc.
      assert (Hc' := Hc); unfold searching in Hc'; apply Z.leb_le in Hc'.
      pose proof (midpoint_between _ _ Hc') as Hm.
      split.
      * rewrite probe_world. apply posted_InRange; [lia | exact Hq].
      * intros s' Es.
        destruct (probe url target s w0) as [o w'] eqn:Ep; cbn in Es; subst o.
        apply probe_Ret in Ep as (b & t & _ & _ & ->).
        destruct (Number_of_bigint t <? target); cbn [lo hi]; lia.
    + cbn; lia.
    + exact Hopen.
    + unfold bind.
      change {| lo := 0; hi := latestNum; candidate := None |}
        with (entry latestNum).
      destruct (while fuel searching (probe url target) (entry latestNum) _)
        as [[v | e |] w']; exact Hq.
Qed.

Lemma probes_stay_within_chain_witness :
  (forall k w2 v' w', iterates exampleChain 250 k (entry 5) w2 v' w' ->
     0 <= lo v' /\ lo v' <= hi v' + 1 /\ hi v' <= 5)
  /\ exists reqs,
       sent (snd (findBlockBeforeDate 4 exampleChain 250 initialWorld))
       = (sent (posted initialWorld "eth_blockNumber" []) ++ reqs)%list
       /\ Forall (InRange 5) reqs.
Proof.
  apply (probes_stay_within_chain 4 exampleChain 250 initialWorld 5).
  - reflexivity.
  - lia.
Defined.

(** ** Failures of the oracle *)

Lemma thrown {A} (m : M A) w e :
  fst (m w) = Throw e -> m w = (Throw e, snd (m w)).
Proof. intros E; rewrite (run_eq m w) at 1; rewrite E; reflexivity. Qed.

(** C6: a failure of an oracle call, be it the fetch of the latest
    height, the fetch of the latest block or the fetch of any turn of
    the loop, is the outcome of the whole search: the same error is
    thrown, nothing is returned, not even the candidate of the earlier
    turns, and the world is left as the failing call left it, one
    request after the call before: nothing is asked again. *)
Theorem oracle_failure_aborts_search fuel url target w e :
  (fst (getLatestBlockNumber url w) = Throw e ->
     findBlockBeforeDate fuel url target w
     = (Throw e, posted w "eth_blockNumber" []))
  /\ (forall latestNum,
        fst (getLatestBlockNumber url w) = Ret latestNum ->
        fst (getBlockByNumber url latestNum (posted w "eth_blockNumber" []))
        = Throw e ->
        findBlockBeforeDate fuel url target w
        = (Throw e, opened w latestNum))
  /\ (forall latestNum latest latestTs k v wk,
        fst (getLatestBlockNumber url w) = Ret latestNum ->
        fst (getBlockByNumber url latestNum (posted w "eth_blockNumber" []))
        = Ret latest ->
        StringToBigInt (RpcBlock.timestamp latest) = Some latestTs ->
        0 < target <= Number_of_bigint latestTs ->
        iterates url target k (entry latestNum) (opened w latestNum) v wk ->
        searching v = true ->
        fst (getBlockByNumber url (midpoint (lo v) (hi v)) wk) = Throw e ->
        (k < fuel)%nat ->
        findBlockBeforeDate fuel url target w
        = (Throw e,
           posted wk "eth_getBlockByNumber"
             (blockParams (midpoint (lo v) (hi v))))).
Proof.
  split; [| split].
  - intros El. apply thrown in El.
    rewrite getLatestBlockNumber_world in El.
    unfold findBlockBeforeDate. apply bind_Throw; exact El.
  - intros latestNum El Eb. apply thrown in Eb.
    rewrite getBlockByNumber_world in Eb.
    unfold findBlockBeforeDate.
    rewrite (bind_Ret _ _ _ _ _ (latest_fetched _ _ _ El)).
    apply bind_Throw; exact Eb.
  - intros latestNum latest latestTs k v wk El Eb Et [Hpos Hle]
      Hit Hc Ef Hk.
    apply thrown in Ef. rewrite getBlockByNumber_world in Ef.
    rewrite (find_opened fuel url target w _ _ _ El Eb Et).
    destruct (target <=? 0) eqn:E0; [apply Z.leb_le in E0; lia |].
    destruct (Number_of_bigint latestTs <? target) eqn:E1;
      [apply Z.ltb_lt in E1; lia |].
    apply bind_Throw.
    rewrite (while_iterates _ _ _ _ _ _ _ Hit fuel ltac:(lia)).
    destruct (fuel - k)%nat as [| rest] eqn:Ek; [lia |].
    cbn [while]. rewrite Hc.
    apply bind_Throw, probe_Throw; exact Ef.
Qed.

Lemma oracle_failure_aborts_search_witness :
  findBlockBeforeDate 4 (failingAt 4 exampleChain) 250 initialWorld
  = (Throw (RpcHttp 503 "Service Unavailable"),
     posted (posted (opened initialWorld 5)
               "eth_getBlockByNumber" (blockParams 2))
       "eth_getBlockByNumber" (blockParams (midpoint 3 5))).
Proof.
  apply (proj2 (proj2 (oracle_failure_aborts_search 4
           (failingAt 4 exampleChain) 250 initialWorld
           (RpcHttp 503 "Service Unavailable")))
           5 (exampleBlock 5) 500 1%nat
           {| lo := 3; hi := 5;
              candidate := Some (Candidate.mk 2 200 "block-2") |}
           (posted (opened initialWorld 5)
              "eth_getBlockByNumber" (blockParams 2))).
  - reflexivity.
  - reflexivity.
  - reflexivity.
  - vm_compute; split; [reflexivity | discriminate].
  - eapply iterates_S; [reflexivity | reflexivity | apply iterates_O].
  - reflexivity.
  - reflexivity.
  - lia.
Defined.

(** ** Determinism *)

Lemma bind_Blind {A B} (m : M A) (k : A -> M B) :
  Blind m -> (forall a, Blind (k a)) -> Blind (bind m k).
Proof.
  intros Hm Hk w1 w2. unfold bind.
  specialize (Hm w1 w2).
  destruct (m w1) as [o1 w1'], (m w2) as [o2 w2']; cbn in Hm; subst o2.
  destruct o1; cbn; [apply Hk | reflexivity | reflexivity].
Qed.

Lemma ret_Blind {A} (a : A) : Blind (ret a).
Proof. intros w1 w2; reflexivity. Qed.

Lemma hexToBigInt_Blind hex : Blind (hexToBigInt hex).
Proof.
  intros w1 w2; unfold hexToBigInt.
  destruct (StringToBigInt hex); reflexivity.
Qed.

Lemma rpc_string_Blind url method params :
  IdBlind url -> Blind (rpc (T := string) url method params).
Proof.
  intros Hid w1 w2. unfold rpc, answer, Answer_string.
  rewrite (proj1 (Hid
    (mkRequest "2.0" (rpcId w1) method params)
    (mkRequest "2.0" (rpcId w2) method params) eq_refl eq_refl)).
  destruct (answerString url _); reflexivity.
Qed.

Lemma rpc_block_Blind url method params :
  IdBlind url -> Blind (rpc (T := option RpcBlock.t) url method params).
Proof.
  intros Hid w1 w2. unfold rpc, answer, Answer_block.
  rewrite (proj2 (Hid
    (mkRequest "2.0" (rpcId w1) method params)
    (mkRequest "2.0" (rpcId w2) method params) eq_refl eq_refl)).
  destruct (answerBlock url _); reflexivity.
Qed.

Lemma getLatestBlockNumber_Blind url :
  IdBlind url -> Blind (getLatestBlockNumber url).
Proof.
  intros Hid. apply bind_Blind;
    [apply rpc_string_Blind, Hid | intros; apply hexToBigInt_Blind].
Qed.

Lemma getBlockByNumber_Blind url n :
  IdBlind url -> Blind (getBlockByNumber url n).
Proof.
  intros Hid. unfold getBlockByNumber; cbv zeta.
  apply bind_Blind; [apply rpc_block_Blind, Hid |].
  intros [b |] w1 w2; reflexivity.
Qed.

Lemma timestampOf_Blind b : Blind (timestampOf b).
Proof.
  apply bind_Blind; [apply hexToBigInt_Blind | intros; apply ret_Blind].
Qed.

Lemma probe_Blind url target v : IdBlind url -> Blind (probe url target v).
Proof.
  intros Hid. apply bind_Blind; [apply getBlockByNumber_Blind, Hid |].
  intros b. apply bind_Blind; [apply timestampOf_Blind |].
  intros t. destruct (t <? target); apply ret_Blind.
Qed.

Lemma while_Blind {S} (cond : S -> bool) (body : S -> M S) :
  (forall s, Blind (body s)) ->
  forall fuel s, Blind (while fuel cond body s).
Proof.
  intros Hbody fuel; induction fuel as [| fuel IH]; intros s.
  - intros w1 w2; reflexivity.
  - cbn [while]. destruct (cond s); [| apply ret_Blind].
    apply bind_Blind; [apply Hbody | exact IH].
Qed.

(** C9: against an endpoint that answers by method and parameters
    alone, a fixed oracle state, the outcome of the search is the same
    from any two worlds, whatever the counter of request ids and the
    requests already posted; in particular a second search, run in the
    world that the first one left, has the outcome of the first:
    nothing or the same height, hash and timestamp. *)
Theorem search_is_deterministic fuel url target :
  IdBlind url ->
  (forall w1 w2,
     fst (findBlockBeforeDate fuel url target w1)
     = fst (findBlockBeforeDate fuel url target w2))
  /\ (forall w,
        fst (findBlockBeforeDate fuel url target
               (snd (findBlockBeforeDate fuel url target w)))
        = fst (findBlockBeforeDate fuel url target w)).
Proof.
  intros Hid.
  assert (Blind (findBlockBeforeDate fuel url target)) as H.
  { unfold findBlockBeforeDate.
    apply bind_Blind; [apply getLatestBlockNumber_Blind, Hid |].
    intros latestNum.
    apply bind_Blind; [apply getBlockByNumber_Blind, Hid |].
    intros latest. apply bind_Blind; [apply timestampOf_Blind |].
    intros latestTs.
    destruct (target <=? 0); [apply ret_Blind |].
    destruct (latestTs <? target); [apply ret_Blind |].
    apply bind_Blind; [| intros; apply ret_Blind].
    apply while_Blind. intros v; apply probe_Blind, Hid. }
  split; [exact H | intros w; apply H].
Qed.

Lemma search_is_deterministic_witness :
  (forall w1 w2,
     fst (findBlockBeforeDate 4 exampleChain 250 w1)
     = fst (findBlockBeforeDate 4 exampleChain 250 w2))
  /\ (forall w,
        fst (findBlockBeforeDate 4 exampleChain 250
               (snd (findBlockBeforeDate 4 exampleChain 250 w)))
        = fst (findBlockBeforeDate 4 exampleChain 250 w)).
Proof.
  apply (search_is_deterministic 4 exampleChain 250).
  intros r r' Hm Hp. split; cbn; [reflexivity | rewrite Hp; reflexivity].
Defined.

(** ** The date parser *)

(** The test of the parser accepts exactly the literals that have a
    value. *)
Lemma isIntegerLiteral_value input :
  isIntegerLiteral (trim input) = isSome (integerLiteralValue input).
Proof.
  unfold isIntegerLiteral, integerLiteralValue.
  destruct (trim input) as [| c ds]; [reflexivity |].
  destruct (Ascii.eqb c "-") eqn:E.
  - apply Ascii.eqb_eq in E; subst c.
    destruct (digitsValue 10 ds); reflexivity.
  - destruct c as [[] [] [] [] [] [] [] []]; try reflexivity.
    discriminate E.
Qed.

Lemma overflow_beyond_safe : MAX_SAFE_INTEGER < overflow_threshold.
Proof.
  unfold MAX_SAFE_INTEGER, overflow_threshold.
  assert (2 ^ 53 <= 2 ^ 970) by (apply Z.pow_le_mono_r; lia).
  assert (2 * 2 ^ 970 <= 2 ^ 1024).
  { change (2 * 2 ^ 970) with (2 ^ 1 * 2 ^ 970).
    rewrite <- Z.pow_add_r by lia. apply Z.pow_le_mono_r; lia. }
  lia.
Qed.

(** What the parser makes of a numeric literal whose value is a safe
    integer. *)
Lemma numeric_date_of_safe Date_parse input n :
  integerLiteralValue input = Some n ->
  isSafe n ->
  parseTargetToUnixSeconds Date_parse input
  = if 10 ^ 10 <? n then Ret (n / 1000) else Ret n.
Proof.
  intros Ev Hs.
  unfold parseTargetToUnixSeconds, Number_of_string.
  rewrite isIntegerLiteral_value, Ev; cbn [isSome].
  pose proof overflow_beyond_safe as Ho.
  destruct (Z.abs n <? overflow_threshold) eqn:Ef;
    [| apply Z.ltb_ge in Ef; unfold isSafe in Hs; lia].
  rewrite (Number_of_safe n Hs).
  destruct (10 ^ 10 <? n) eqn:E; [| reflexivity].
  apply Z.ltb_lt in E. rewrite floorOfQuotient_safe; [reflexivity | lia |].
  unfold isSafe, MAX_SAFE_INTEGER in Hs. lia.
Qed.

(** C5, where the code departs from it: a numeric literal below
    [-10^10], whose magnitude exceeds [10^10], is returned as it is, in
    seconds, where the claim (and the comment of the code: more than ten
    digits are milliseconds) has it floor-divided by 1000; its positive
    sibling is divided.  So "-1704067199000" reads as -1704067199000,
    while "1704067199000" and "1704067199" both read as 1704067199. *)
Theorem negative_milliseconds_are_not_divided :
  (forall Date_parse input n,
     integerLiteralValue input = Some n ->
     isSafe n ->
     n < - 10 ^ 10 ->
     parseTargetToUnixSeconds Date_parse input = Ret n
     /\ secondsByMagnitude n = n / 1000
     /\ n / 1000 <> n
     /\ forall input', integerLiteralValue input' = Some (- n) ->
          parseTargetToUnixSeconds Date_parse input' = Ret (- n / 1000))
  /\ parseTargetToUnixSeconds noDates "-1704067199000"
     = Ret (-1704067199000)
  /\ secondsByMagnitude (-1704067199000) = -1704067199
  /\ parseTargetToUnixSeconds noDates "1704067199000" = Ret 1704067199
  /\ parseTargetToUnixSeconds noDates "1704067199" = Ret 1704067199.
Proof.
  split; [| repeat split; vm_compute; reflexivity].
  intros Date_parse input n Ev Hs Hn.
  split; [| split; [| split]].
  - rewrite (numeric_date_of_safe _ _ _ Ev Hs).
    destruct (10 ^ 10 <? n) eqn:E; [apply Z.ltb_lt in E; lia | reflexivity].
  - unfold secondsByMagnitude.
    destruct (10 ^ 10 <? Z.abs n) eqn:E; [reflexivity |].
    apply Z.ltb_ge in E. lia.
  - intros E. assert (n <= -1000) by lia.
    pose proof (Z.div_mod n 1000 ltac:(lia)).
    pose proof (Z.mod_pos_bound n 1000 ltac:(lia)). lia.
  - intros input' Ev'.
    assert (isSafe (- n)) as Hs' by (unfold isSafe in *; lia).
    rewrite (numeric_date_of_safe _ _ _ Ev' Hs').
    destruct (10 ^ 10 <? - n) eqn:E; [reflexivity |].
    apply Z.ltb_ge in E. lia.
Qed.

Lemma negative_milliseconds_are_not_divided_witness :
  parseTargetToUnixSeconds noDates "-1704067199000" = Ret (-1704067199000)
  /\ secondsByMagnitude (-1704067199000) = -1704067199000 / 1000
  /\ -1704067199000 / 1000 <> -1704067199000
  /\ forall input', integerLiteralValue input' = Some (- -1704067199000) ->
       parseTargetToUnixSeconds noDates input'
       = Ret (- -1704067199000 / 1000).
Proof.
  apply (proj1 negative_milliseconds_are_not_divided noDates
           "-1704067199000" (-1704067199000)).
  - reflexivity.
  - vm_compute; discriminate.
  - vm_compute; reflexivity.
Defined.

(** * Further properties of the code *)

(** ** The requests of a search *)

Lemma numbered_snoc first reqs r :
  numbered first reqs ->
  numbered (first + Z.of_nat (length reqs)) [r] ->
  numbered first (reqs ++ [r]).
Proof.
  revert first; induction reqs as [| a reqs IH]; intros first Hn Hr.
  - cbn in Hr |- *. rewrite Z.add_0_r in Hr. exact Hr.
  - cbn [numbered app] in Hn |- *.
    destruct Hn as (Hid & Hv & Hm & Hrest).
    repeat split; auto.
    apply IH; [exact Hrest |].
    replace (first + 1 + Z.of_nat (length reqs))
      with (first + Z.of_nat (length (a :: reqs))) by (cbn [length]; lia).
    exact Hr.
Qed.

(** Whatever is true of the world once the latest height has been asked
    for, and stays true when a block is asked for, is true of the world
    that a search leaves, however it ends. *)
Lemma find_posts (Q : World -> Prop) fuel url target w :
  Q (posted w "eth_blockNumber" []) ->
  (forall w' h, Q w' -> Q (posted w' "eth_getBlockByNumber" (blockParams h))) ->
  Q (snd (findBlockBeforeDate fuel url target w)).
Proof.
  intros Q0 Qstep. unfold findBlockBeforeDate.
  unfold bind at 1.
  pose proof (getLatestBlockNumber_world url w) as Hw.
  destruct (getLatestBlockNumber url w) as [[latestNum | e |] w1];
    cbn [snd] in Hw |- *; subst w1; try exact Q0.
  assert (Q1 := Qstep _ latestNum Q0).
  unfold bind at 1.
  pose proof (getBlockByNumber_world url latestNum
                (posted w "eth_blockNumber" [])) as Hw.
  destruct (getBlockByNumber url latestNum _) as [[latest | e |] w2];
    cbn [snd] in Hw |- *; subst w2; try exact Q1.
  unfold bind at 1.
  pose proof (timestampOf_world latest
    (posted (posted w "eth_blockNumber" []) "eth_getBlockByNumber"
       (blockParams latestNum))) as Hw.
  destruct (timestampOf latest _) as [[latestTs | e |] w3];
    cbn [snd] in Hw |- *; subst w3; try exact Q1.
  destruct (target <=? 0); [exact Q1 |].
  destruct (latestTs <? target); [exact Q1 |].
  destruct (while_safe (fun _ : Vars => True) Q searching (probe url target))
    with (fuel := fuel) (s := entry latestNum)
         (w := posted (posted w "eth_blockNumber" []) "eth_getBlockByNumber"
                 (blockParams latestNum)) as [Hq _]; auto.
  - intros v w0 _ Hq _. split; [| auto].
    rewrite probe_world. apply Qstep, Hq.
  - unfold bind.
    change {| lo := 0; hi := latestNum; candidate := None |}
      with (entry latestNum).
    destruct (while fuel searching (probe url target) (entry latestNum) _)
      as [[v | e |] w']; exact Hq.
Qed.

(** X1: the requests of a search carry consecutive ids that start at the
    counter, which ends advanced by their number; the first one asks for
    the latest height, and every other one asks for a block by the hex
    of a height, without its transactions. *)
Theorem search_requests_are_numbered fuel url target w :
  exists reqs,
    sent (snd (findBlockBeforeDate fuel url target w))
    = (sent w ++ requestOf w "eth_blockNumber" [] :: reqs)%list
    /\ numbered (rpcId w) (requestOf w "eth_blockNumber" [] :: reqs)
    /\ Forall (fun r => exists h, method r = "eth_getBlockByNumber"
                                  /\ params r = blockParams h) reqs
    /\ rpcId (snd (findBlockBeforeDate fuel url target w))
       = rpcId w + 1 + Z.of_nat (length reqs).
Proof.
  apply (find_posts
    (fun w' => exists reqs,
       sent w' = (sent w ++ requestOf w "eth_blockNumber" [] :: reqs)%list
       /\ numbered (rpcId w) (requestOf w "eth_blockNumber" [] :: reqs)
       /\ Forall (fun r => exists h, method r = "eth_getBlockByNumber"
                                     /\ params r = blockParams h) reqs
       /\ rpcId w' = rpcId w + 1 + Z.of_nat (length reqs))).
  - exists []. cbn. repeat split; auto; lia.
  - intros w' h (reqs & Es & Hn & Hall & Eid).
    exists (reqs ++ [requestOf w' "eth_getBlockByNumber" (blockParams h)])%list.
    unfold posted; cbn [sent rpcId]. split; [| split; [| split]].
    + rewrite Es, <- app_assoc. reflexivity.
    + change (requestOf w "eth_blockNumber" []
              :: reqs ++ [requestOf w' "eth_getBlockByNumber" (blockParams h)])%list
        with ((requestOf w "eth_blockNumber" [] :: reqs)
              ++ [requestOf w' "eth_getBlockByNumber" (blockParams h)])%list.
      apply numbered_snoc; [exact Hn |].
      cbn [numbered length requestOf id jsonrpc method params].
      split; [lia |]. split; [reflexivity |]. split; [| exact I].
      right. exists h. auto.
    + apply Forall_app; split; [exact Hall |].
      constructor; [| constructor]. exists h; auto.
    + rewrite length_app; cbn [length]. lia.
Qed.

(** ** The client *)

(** X2: [getBlockByNumber] returns a block exactly when the endpoint's
    result is that block; a [null] result is the error that names the
    hex of the height, an HTTP status, an RPC error and a rejected fetch
    are errors of their own; it always settles and posts one request. *)
Theorem getBlockByNumber_block_or_error url n w :
  (forall b,
     fst (getBlockByNumber url n w) = Ret b
     <-> answerBlock url (requestOf w "eth_getBlockByNumber" (blockParams n))
         = Result (Some b))
  /\ (forall e,
        fst (getBlockByNumber url n w) = Throw e
        <-> match answerBlock url
                    (requestOf w "eth_getBlockByNumber" (blockParams n)) with
            | Rejected reason => e = FetchRejected reason
            | NotOk code text => e = RpcHttp code text
            | Faulted error => e = RpcError error
            | Result None => e = BlockNotFound (hexOf n)
            | Result (Some _) => False
            end)
  /\ fst (getBlockByNumber url n w) <> Unsettled
  /\ snd (getBlockByNumber url n w)
     = posted w "eth_getBlockByNumber" (blockParams n).
Proof.
  split; [| split; [| split; [| apply getBlockByNumber_world]]].
  - intros b. unfold getBlockByNumber, bind, rpc, answer, Answer_block,
      requestOf, blockParams; cbv zeta.
    destruct (answerBlock url _) as [r | c t | x | [b' |]]; cbn;
      split; intros E; inversion E; subst; reflexivity.
  - intros e. unfold getBlockByNumber, bind, rpc, answer, Answer_block,
      requestOf, blockParams; cbv zeta.
    destruct (answerBlock url _) as [r | c t | x | [b' |]]; cbn;
      split; intros E; try inversion E; subst; try reflexivity;
      contradiction.
  - unfold getBlockByNumber, bind, rpc, answer, Answer_block; cbv zeta.
    destruct (answerBlock url _) as [r | c t | x | [b' |]]; cbn; discriminate.
Qed.

(** ** Hex and [BigInt] *)

Lemma hexToBigInt_read hex z w :
  StringToBigInt hex = Some z -> hexToBigInt hex w = (Ret z, w).
Proof. unfold hexToBigInt; intros ->; reflexivity. Qed.

Lemma hexToBigInt_refused hex w :
  StringToBigInt hex = None ->
  hexToBigInt hex w = (Throw (SyntaxError hex), w).
Proof. unfold hexToBigInt; intros ->; reflexivity. Qed.

(** X3: the hex that [getBlockByNumber] writes for a height reads back
    through [hexToBigInt] as that height when the height is not
    negative; the hex of a negative height, ["0x-..."], is refused. *)
Theorem hex_round_trip n w :
  (0 <= n ->
     hexToBigInt (hexOf n) w = (Ret n, w)
     /\ isHexQuantity (hexOf n) = true)
  /\ (n < 0 -> hexToBigInt (hexOf n) w = (Throw (SyntaxError (hexOf n)), w)).
Proof.
  split.
  - intros Hn. destruct (StringToBigInt_hexOf n Hn) as [E Hq].
    split; [apply hexToBigInt_read, E | exact Hq].
  - intros Hn. apply hexToBigInt_refused.
    destruct n as [| p | p]; try lia.
    pose proof (digits_of_pos p EmptyString) as E. cbn [digitsValueFrom] in E.
    unfold hexOf, toString16.
    change ("0x" ++ ("-" ++ HexString.Raw.of_pos p EmptyString))%string
      with (String "0" (String "x"
              (String "-" (HexString.Raw.of_pos p EmptyString)))).
    destruct (HexString.Raw.of_pos p EmptyString) as [| d ds] eqn:Ep;
      [discriminate E |].
    unfold StringToBigInt, trim.
    change (trimStart (String "0" (String "x" (String "-" (String d ds)))))
      with (String "0" (String "x" (String "-" (String d ds)))).
    assert (trimEnd (String "0" (String "x" (String "-" (String d ds))))
            = String "0" (String "x" (String "-" (String d ds)))) as ->.
    { repeat (apply trimEnd_cons; [| discriminate]).
      exact (digits_trimEnd 16 _ _ _ E). }
    reflexivity.
Qed.

Lemma hex_round_trip_witness :
  (hexToBigInt (hexOf 1704067199) initialWorld = (Ret 1704067199, initialWorld)
   /\ isHexQuantity (hexOf 1704067199) = true)
  /\ hexToBigInt (hexOf (-255)) initialWorld
     = (Throw (SyntaxError (hexOf (-255))), initialWorld).
Proof.
  split.
  - apply (proj1 (hex_round_trip 1704067199 initialWorld)). lia.
  - apply (proj2 (hex_round_trip (-255) initialWorld)). lia.
Defined.

(** X4: on a hex quantity, the format of the endpoint's numbers,
    [hexToBigInt] never throws and never returns a negative number. *)
Theorem hexToBigInt_reads_hex_quantities s :
  isHexQuantity s = true ->
  exists z, 0 <= z /\ forall w, hexToBigInt s w = (Ret z, w).
Proof.
  intros Hs. destruct (hexQuantity_shape s Hs) as (ds & v & E & Ev).
  assert (StringToBigInt s = Some v) as Er.
  { subst s. unfold digitsValue in Ev.
    destruct ds as [| d ds]; [discriminate |].
    unfold StringToBigInt, trim.
    change (trimStart (String "0" (String "x" (String d ds))))
      with (String "0" (String "x" (String d ds))).
    assert (trimEnd (String "0" (String "x" (String d ds)))
            = String "0" (String "x" (String d ds))) as ->.
    { repeat (apply trimEnd_cons; [| discriminate]).
      exact (digits_trimEnd 16 _ _ _ Ev). }
    exact Ev. }
  exists v. split; [exact (hexQuantity_nonneg s v Hs Er) |].
  intros w; apply hexToBigInt_read, Er.
Qed.

Lemma hexToBigInt_reads_hex_quantities_witness :
  exists z, 0 <= z /\ forall w, hexToBigInt "0x1f4" w = (Ret z, w).
Proof.
  apply (hexToBigInt_reads_hex_quantities "0x1f4"). reflexivity.
Defined.

(** ** The search over any chain *)

Lemma probe_Vouched url target latestNum v w v' :
  Vouched url target latestNum v ->
  searching v = true ->
  fst (probe url target v w) = Ret v' ->
  Vouched url target latestNum v'.
Proof.
  intros (Hlo & Hhi & Hc) Hs E.
  destruct (probe url target v w) as [o w'] eqn:Ep; cbn in E; subst o.
  apply probe_Ret in Ep as (b & t & Eb & Et & ->).
  unfold searching in Hs; apply Z.leb_le in Hs.
  pose proof (midpoint_between _ _ Hs) as Hm.
  unfold Vouched.
  destruct (Number_of_bigint t <? target) eqn:Elt; cbn [lo hi candidate].
  - apply Z.ltb_lt in Elt.
    split; [lia |]. split; [lia |].
    cbn [Candidate.ts Candidate.n Candidate.hash].
    split; [exact Elt |]. split; [lia |].
    exists w, b, t. rewrite Eb. auto.
  - split; [lia |]. split; [lia | exact Hc].
Qed.

(** The search vouches for what it returns. *)
Lemma search_vouches_for_found
    fuel url target w found w' :
  findBlockBeforeDate fuel url target w = (Ret (Some found), w') ->
  0 < target
  /\ Found.timestamp found < target
  /\ exists latestNum n wk b t,
       fst (getLatestBlockNumber url w) = Ret latestNum
       /\ n <= latestNum
       /\ (0 <= latestNum -> 0 <= n)
       /\ Found.number found = Number_of_bigint n
       /\ fst (getBlockByNumber url n wk) = Ret b
       /\ StringToBigInt (RpcBlock.timestamp b) = Some t
       /\ Found.timestamp found = Number_of_bigint t
       /\ RpcBlock.hash b = Found.hash found.
Proof.
  unfold findBlockBeforeDate. unfold bind at 1.
  destruct (getLatestBlockNumber url w) as [[latestNum | e |] w1] eqn:El;
    try discriminate.
  unfold bind at 1.
  destruct (getBlockByNumber url latestNum w1) as [[latest | e |] w2] eqn:Eb;
    try discriminate.
  unfold bind at 1.
  destruct (timestampOf latest w2) as [[latestTs | e |] w3] eqn:Et;
    try discriminate.
  apply timestampOf_Ret in Et as (z & Et & -> & ->).
  destruct (target <=? 0) eqn:E0; [discriminate |].
  apply Z.leb_gt in E0.
  destruct (Number_of_bigint z <? target) eqn:E1.
  - apply Z.ltb_lt in E1. intros E; inversion E; subst; clear E.
    cbn [Found.timestamp Found.number Found.hash].
    split; [exact E0 |]. split; [exact E1 |].
    exists latestNum, latestNum, w1, latest, z. rewrite Eb.
    repeat split; auto; lia.
  - unfold bind.
    destruct (while fuel searching (probe url target) _ w2)
      as [[v | e |] w4] eqn:Ew; try discriminate.
    intros E; inversion E as [[Ec Ew']]; clear E.
    destruct (while_safe (Vouched url target latestNum) (fun _ => True)
                searching (probe url target)) with (fuel := fuel)
      (s := entry latestNum) (w := w2) as [_ Hv]; auto.
    + intros s w0 Hs _ Hc. split; [exact I |].
      intros s' Es. apply (probe_Vouched _ _ _ _ _ _ Hs Hc Es).
    + unfold Vouched, entry; cbn. lia.
    + change {| lo := 0; hi := latestNum; candidate := None |}
        with (entry latestNum) in Ew.
      rewrite Ew in Hv. destruct (Hv v eq_refl) as [(Hlo & Hhi & Hc) _].
      unfold conclude in Ec.
      destruct (candidate v) as [c |]; [| discriminate].
      inversion Ec; subst found; clear Ec.
      cbn [Found.timestamp Found.number Found.hash].
      destruct Hc as (Hlt & Hn & wk & b & t & Hb & Hbt & Hct & Hbh).
      split; [exact E0 |]. split; [exact Hlt |].
      exists latestNum, (Candidate.n c), wk, b, t.
      repeat split; auto; lia.
Qed.

(** X6: whatever the endpoint serves, sorted or not, a block that the
    search returns is strictly before the target, which is above zero;
    its height is [Number] of a height that the endpoint served a block
    for, its timestamp [Number] of that block's timestamp and its hash
    that block's hash; and that height is at most the latest height, and
    not negative unless the latest height is. *)
Theorem found_is_before_target_on_any_chain
    fuel url target w found w' :
  findBlockBeforeDate fuel url target w = (Ret (Some found), w') ->
  0 < target
  /\ Found.timestamp found < target
  /\ exists latestNum n wk b t,
       fst (getLatestBlockNumber url w) = Ret latestNum
       /\ n <= latestNum
       /\ (0 <= latestNum -> 0 <= n)
       /\ Found.number found = Number_of_bigint n
       /\ fst (getBlockByNumber url n wk) = Ret b
       /\ StringToBigInt (RpcBlock.timestamp b) = Some t
       /\ Found.timestamp found = Number_of_bigint t
       /\ RpcBlock.hash b = Found.hash found.
Proof. apply search_vouches_for_found. Qed.

Lemma found_is_before_target_on_any_chain_witness :
  0 < 250
  /\ Found.timestamp (Found.mk 4 "block-4" 200) < 250
  /\ exists latestNum n wk b t,
       fst (getLatestBlockNumber unsortedChain initialWorld) = Ret latestNum
       /\ n <= latestNum
       /\ (0 <= latestNum -> 0 <= n)
       /\ Found.number (Found.mk 4 "block-4" 200) = Number_of_bigint n
       /\ fst (getBlockByNumber unsortedChain n wk) = Ret b
       /\ StringToBigInt (RpcBlock.timestamp b) = Some t
       /\ Found.timestamp (Found.mk 4 "block-4" 200) = Number_of_bigint t
       /\ RpcBlock.hash b = Found.hash (Found.mk 4 "block-4" 200).
Proof.
  apply (found_is_before_target_on_any_chain 4 unsortedChain 250 initialWorld
           (Found.mk 4 "block-4" 200)
           (posted (posted (posted (opened initialWorld 5)
                      "eth_getBlockByNumber" (blockParams 2))
                      "eth_getBlockByNumber" (blockParams 4))
              "eth_getBlockByNumber" (blockParams 5))).
  reflexivity.
Defined.

(** Timestamps that do not decrease are read as numbers that do not. *)
Lemma nondecreasing_read ts latestNum :
  nondecreasing ts latestNum -> nondecreasing (readAs ts) latestNum.
Proof.
  intros Hmono h1 h2 H0 H12 H2. unfold readAs.
  apply Number_of_bigint_monotone, Hmono; assumption.
Qed.

(** X18: over a chain whose timestamps do not decrease up to a
    non-negative latest height, however large they are, and for a target
    above zero and not above the latest timestamp as [Number] reads it,
    the search settles, given the turns it needs, on the latest block
    whose timestamp, read as a number, is strictly below the target: it
    returns the [Number] of that height, the block's hash and the
    timestamp as read, and every later height reads as at least the
    target; it returns nothing when every height does. *)
Theorem search_finds_latest_before_target_as_read
    url latestNum chain ts target fuel w :
  0 <= latestNum ->
  Serves url latestNum chain ts ->
  nondecreasing ts latestNum ->
  0 < target <= readAs ts latestNum ->
  (probesBound (latestNum + 1) < fuel)%nat ->
  exists r w',
    findBlockBeforeDate fuel url target w = (Ret r, w')
    /\ match r with
       | None => forall h, 0 <= h <= latestNum -> target <= readAs ts h
       | Some found =>
           exists n,
             0 <= n <= latestNum
             /\ found = Found.mk (Number_of_bigint n)
                          (RpcBlock.hash (chain n)) (readAs ts n)
             /\ readAs ts n < target
             /\ forall h, n < h <= latestNum -> target <= readAs ts h
       end.
Proof.
  intros HL Hs Hmono Ht Hfuel.
  destruct (find_brackets url latestNum chain ts target fuel w)
    as (v & w' & E & Hv & Hx); auto using nondecreasing_read.
  exists (conclude v), w'. split; [exact E |].
  destruct Hv as (Hlo & Hle & Hhi & Hbelow & Habove & Hcand).
  unfold conclude. destruct (candidate v) as [[n t h] |].
  - cbn [Candidate.n Candidate.ts Candidate.hash] in *.
    destruct Hcand as (Hn0 & Hn & -> & ->).
    exists n. split; [lia |]. split; [reflexivity |].
    split; [apply Hbelow; lia |].
    intros k Hk. apply Habove. lia.
  - intros k Hk. apply Habove. lia.
Qed.

Lemma search_finds_latest_before_target_as_read_witness :
  exists r w',
    findBlockBeforeDate 4 wideChain (2 ^ 53 + 4) initialWorld = (Ret r, w')
    /\ match r with
       | None => forall h, 0 <= h <= 2 -> 2 ^ 53 + 4 <= readAs wideTs h
       | Some found =>
           exists n,
             0 <= n <= 2
             /\ found = Found.mk (Number_of_bigint n)
                          (RpcBlock.hash (wideBlock n)) (readAs wideTs n)
             /\ readAs wideTs n < 2 ^ 53 + 4
             /\ forall h, n < h <= 2 -> 2 ^ 53 + 4 <= readAs wideTs h
       end.
Proof.
  apply (search_finds_latest_before_target_as_read wideChain 2 wideBlock
           wideTs (2 ^ 53 + 4) 4%nat initialWorld).
  - lia.
  - split; [intros ?; reflexivity |].
    split; intros; assert (h = 0 \/ h = 1 \/ h = 2) as C by lia;
      destruct C as [-> | [-> | ->]]; reflexivity.
  - intros h1 h2 ? ? ?.
    assert (h1 = 0 \/ h1 = 1 \/ h1 = 2) as C1 by lia.
    assert (h2 = 0 \/ h2 = 1 \/ h2 = 2) as C2 by lia.
    destruct C1 as [-> | [-> | ->]], C2 as [-> | [-> | ->]];
      vm_compute; lia || discriminate.
  - vm_compute; split; [reflexivity | discriminate].
  - vm_compute; lia.
Defined.

(** X7: an unreadable timestamp is an error of the search, thrown with the
    text that [BigInt] refused: in the latest block it is thrown before
    the target is looked at, so even for a target at or below zero; in
    the block of a turn it ends the search at that turn, with nothing
    returned and nothing asked again. *)
Theorem unreadable_timestamp_aborts_search fuel url target w :
  (forall latestNum latest,
     fst (getLatestBlockNumber url w) = Ret latestNum ->
     fst (getBlockByNumber url latestNum (posted w "eth_blockNumber" []))
     = Ret latest ->
     StringToBigInt (RpcBlock.timestamp latest) = None ->
     findBlockBeforeDate fuel url target w
     = (Throw (SyntaxError (RpcBlock.timestamp latest)),
        opened w latestNum))
  /\ (forall latestNum latest latestTs k v wk b,
        fst (getLatestBlockNumber url w) = Ret latestNum ->
        fst (getBlockByNumber url latestNum (posted w "eth_blockNumber" []))
        = Ret latest ->
        StringToBigInt (RpcBlock.timestamp latest) = Some latestTs ->
        0 < target <= Number_of_bigint latestTs ->
        iterates url target k (entry latestNum) (opened w latestNum) v wk ->
        searching v = true ->
        fst (getBlockByNumber url (midpoint (lo v) (hi v)) wk) = Ret b ->
        StringToBigInt (RpcBlock.timestamp b) = None ->
        (k < fuel)%nat ->
        findBlockBeforeDate fuel url target w
        = (Throw (SyntaxError (RpcBlock.timestamp b)),
           posted wk "eth_getBlockByNumber"
             (blockParams (midpoint (lo v) (hi v))))).
Proof.
  split.
  - intros latestNum latest El Eb Et.
    unfold findBlockBeforeDate.
    rewrite (bind_Ret _ _ _ _ _ (latest_fetched _ _ _ El)).
    rewrite (bind_Ret _ _ _ _ _ (block_served _ _ _ _ Eb)).
    apply bind_Throw. unfold timestampOf. apply bind_Throw.
    apply hexToBigInt_refused, Et.
  - intros latestNum latest latestTs k v wk b El Eb Et [Hpos Hle]
      Hit Hc Ep Ebt Hk.
    rewrite (find_opened fuel url target w _ _ _ El Eb Et).
    destruct (target <=? 0) eqn:E0; [apply Z.leb_le in E0; lia |].
    destruct (Number_of_bigint latestTs <? target) eqn:E1;
      [apply Z.ltb_lt in E1; lia |].
    apply bind_Throw.
    rewrite (while_iterates _ _ _ _ _ _ _ Hit fuel ltac:(lia)).
    destruct (fuel - k)%nat as [| rest] eqn:Ek; [lia |].
    cbn [while]. rewrite Hc. apply bind_Throw.
    unfold probe.
    rewrite (bind_Ret _ _ _ _ _ (block_served _ _ _ _ Ep)).
    apply bind_Throw. unfold timestampOf. apply bind_Throw.
    apply hexToBigInt_refused, Ebt.
Qed.

Lemma unreadable_timestamp_aborts_search_witness :
  findBlockBeforeDate 0
    (listEndpoint [RpcBlock.mk "0x0" "soon" "block-0" "none"]) (-1)
    initialWorld
  = (Throw (SyntaxError "soon"), opened initialWorld 0)
  /\ findBlockBeforeDate 4 garbledChain 250 initialWorld
     = (Throw (SyntaxError "0x19g"),
        posted (posted (opened initialWorld 5)
                  "eth_getBlockByNumber" (blockParams 2))
          "eth_getBlockByNumber" (blockParams (midpoint 3 5))).
Proof.
  split.
  - apply (proj1 (unreadable_timestamp_aborts_search 0
             (listEndpoint [RpcBlock.mk "0x0" "soon" "block-0" "none"]) (-1)
             initialWorld)
             0 (RpcBlock.mk "0x0" "soon" "block-0" "none"));
      reflexivity.
  - apply (proj2 (unreadable_timestamp_aborts_search 4 garbledChain 250
             initialWorld)
             5 (blockAt 5 500) 500 1%nat
             {| lo := 3; hi := 5;
                candidate := Some (Candidate.mk 2 200 "block-2") |}
             (posted (opened initialWorld 5)
                "eth_getBlockByNumber" (blockParams 2))
             (RpcBlock.mk (hexOf 4) "0x19g" "block-4" "block-3")).
    + reflexivity.
    + reflexivity.
    + reflexivity.
    + vm_compute; split; [reflexivity | discriminate].
    + eapply iterates_S; [reflexivity | reflexivity | apply iterates_O].
    + reflexivity.
    + reflexivity.
    + reflexivity.
    + lia.
Defined.

(** ** More of the date parser *)

Lemma trimStart_clean s :
  match trimStart s with
  | String c _ => isWhiteSpace c = false
  | EmptyString => True
  end.
Proof.
  induction s as [| c s IH]; cbn; [exact I |].
  destruct (isWhiteSpace c) eqn:E; [exact IH | exact E].
Qed.

Lemma trimEnd_trimEnd s : trimEnd (trimEnd s) = trimEnd s.
Proof.
  induction s as [| c s IH]; [reflexivity |].
  cbn [trimEnd]. destruct (trimEnd s) as [| d kept] eqn:E.
  - destruct (isWhiteSpace c) eqn:Ec; [reflexivity |].
    cbn [trimEnd]. rewrite Ec. reflexivity.
  - change (trimEnd (String c (String d kept)))
      with (match trimEnd (String d kept) with
            | EmptyString =>
                if isWhiteSpace c then EmptyString else String c EmptyString
            | kept' => String c kept'
            end).
    rewrite IH. reflexivity.
Qed.

Lemma trimEnd_head c s :
  isWhiteSpace c = false ->
  exists rest, trimEnd (String c s) = String c rest.
Proof.
  intros Ec. cbn [trimEnd].
  destruct (trimEnd s) as [| d kept]; [rewrite Ec |]; eauto.
Qed.

(** [trim] leaves what is trimmed alone. *)
Lemma trim_trim s : trim (trim s) = trim s.
Proof.
  unfold trim.
  pose proof (trimStart_clean s) as Hc.
  destruct (trimStart s) as [| c t] eqn:Es; [reflexivity |].
  destruct (trimEnd_head c t Hc) as [rest Er].
  rewrite Er. cbn [trimStart]. rewrite Hc, <- Er.
  apply trimEnd_trimEnd.
Qed.

(** X9: white space around a numeric date does not change its reading: the
    test is made on the trimmed input and [Number] trims its argument,
    so the input and its trimmed form are read alike, as a number or as
    an overflow. *)
Theorem numeric_date_ignores_white_space Date_parse input :
  isIntegerLiteral (trim input) = true ->
  parseTargetToUnixSeconds Date_parse input
  = parseTargetToUnixSeconds Date_parse (trim input)
  /\ forall Date_parse',
       parseTargetToUnixSeconds Date_parse' input
       = parseTargetToUnixSeconds Date_parse input.
Proof.
  intros Hl. unfold parseTargetToUnixSeconds, Number_of_string,
    integerLiteralValue.
  rewrite trim_trim, Hl. split; reflexivity.
Qed.

Lemma numeric_date_ignores_white_space_witness :
  parseTargetToUnixSeconds noDates "  1704067199000  "
  = parseTargetToUnixSeconds noDates (trim "  1704067199000  ")
  /\ forall Date_parse',
       parseTargetToUnixSeconds Date_parse' "  1704067199000  "
       = parseTargetToUnixSeconds noDates "  1704067199000  ".
Proof.
  apply (numeric_date_ignores_white_space noDates "  1704067199000  ").
  reflexivity.
Defined.

(** X10: an input that is not a numeric literal is read by the host's date
    parser: when that gives milliseconds, the result is the second that
    holds them, also before 1970, where the division rounds down; when
    it gives [NaN], the error names the input.  The error of a numeric
    literal is never thrown for it. *)
Theorem calendar_date_is_floored Date_parse input :
  isIntegerLiteral (trim input) = false ->
  (forall ms, Date_parse input = Some ms ->
     exists s, parseTargetToUnixSeconds Date_parse input = Ret s
               /\ 1000 * s <= ms < 1000 * s + 1000)
  /\ (Date_parse input = None ->
      parseTargetToUnixSeconds Date_parse input
      = Throw (UnrecognizedDate input)).
Proof.
  intros Hl. unfold parseTargetToUnixSeconds. rewrite Hl. split.
  - intros ms ->. exists (ms / 1000). split; [reflexivity |].
    Z.div_mod_to_equations; lia.
  - intros ->. reflexivity.
Qed.

Lemma calendar_date_is_floored_witness :
  (forall ms, parsesEpochEve "1969-12-31T23:59:59.999Z" = Some ms ->
     exists s,
       parseTargetToUnixSeconds parsesEpochEve "1969-12-31T23:59:59.999Z"
       = Ret s
       /\ 1000 * s <= ms < 1000 * s + 1000)
  /\ (parsesEpochEve "1969-12-31T23:59:59.999Z" = None ->
      parseTargetToUnixSeconds parsesEpochEve "1969-12-31T23:59:59.999Z"
      = Throw (UnrecognizedDate "1969-12-31T23:59:59.999Z")).
Proof.
  apply (calendar_date_is_floored parsesEpochEve "1969-12-31T23:59:59.999Z").
  reflexivity.
Defined.

(** X17: a numeric literal whose value [n] is a safe integer reads as
    [floor (n / 1000)] when [n] exceeds [10^10] and as [n] itself
    otherwise, the negative values among them; a literal whose magnitude
    reaches [2^1024 - 2^970] converts to an infinity and throws
    [Invalid numeric date.], as the literal of [10^309] does; and between
    the two the literal is rounded to a double before it is divided, so
    that "9007199254740999" reads as 9007199254741. *)
Theorem numeric_date_is_read_as_a_double :
  (forall Date_parse input n,
     integerLiteralValue input = Some n ->
     isSafe n ->
     parseTargetToUnixSeconds Date_parse input
     = Ret (if 10 ^ 10 <? n then n / 1000 else n))
  /\ (forall Date_parse input n,
        integerLiteralValue input = Some n ->
        overflow_threshold <= Z.abs n ->
        parseTargetToUnixSeconds Date_parse input = Throw InvalidNumericDate)
  /\ parseTargetToUnixSeconds noDates "9007199254740999"
     = Ret 9007199254741
  /\ parseTargetToUnixSeconds noDates hugeLiteral = Throw InvalidNumericDate.
Proof.
  split; [| split; [| split; vm_compute; reflexivity]].
  - intros Date_parse input n Ev Hs.
    rewrite (numeric_date_of_safe _ _ _ Ev Hs).
    destruct (10 ^ 10 <? n); reflexivity.
  - intros Date_parse input n Ev Hn.
    unfold parseTargetToUnixSeconds, Number_of_string.
    rewrite isIntegerLiteral_value, Ev; cbn [isSome].
    destruct (Z.abs n <? overflow_threshold) eqn:Ef; [| reflexivity].
    apply Z.ltb_lt in Ef. lia.
Qed.

Lemma numeric_date_is_read_as_a_double_witness :
  parseTargetToUnixSeconds noDates " 1704067199000 "
  = Ret (if 10 ^ 10 <? 1704067199000 then 1704067199000 / 1000
         else 1704067199000)
  /\ parseTargetToUnixSeconds noDates hugeLiteral = Throw InvalidNumericDate.
Proof.
  split.
  - apply (proj1 numeric_date_is_read_as_a_double noDates
             " 1704067199000 " 1704067199000).
    + reflexivity.
    + vm_compute; discriminate.
  - apply (proj1 (proj2 numeric_date_is_read_as_a_double) noDates
             hugeLiteral (10 ^ 309)).
    + vm_compute; reflexivity.
    + vm_compute; discriminate.
Defined.

(** ** The command line *)

Lemma main_given fuel Date_parse toISOString fetchFrom argv rpcUrl dateInput :
  nth_error argv 2 = Some rpcUrl ->
  nth_error argv 3 = Some dateInput ->
  given (Some rpcUrl) = true ->
  given (Some dateInput) = true ->
  main fuel Date_parse toISOString fetchFrom argv
  = match parseTargetToUnixSeconds Date_parse dateInput with
    | Ret targetSec =>
        fun w =>
          match findBlockBeforeDate fuel (fetchFrom rpcUrl) targetSec w with
          | (Ret None, w') => (Ret {| console := [NoBlock]; status := 0 |}, w')
          | (Ret (Some result), w') =>
              if Z.abs (Found.timestamp result * 1000) <=? timeLimit then
                (Ret {| console :=
                          [Printed
                             (Report.mk (Found.number result)
                                (Found.hash result)
                                (Found.timestamp result)
                                (toISOString (Found.timestamp result * 1000)))];
                        status := 0 |}, w')
              else (Ret (caught RangeError), w')
          | (Throw e, w') => (Ret (caught (Error e)), w')
          | (Unsettled, w') => (Unsettled, w')
          end
    | Throw e => ret (caught (Error e))
    | Unsettled => unsettled
    end.
Proof.
  intros E2 E3 G2 G3. unfold main. rewrite E2, E3.
  destruct rpcUrl; [discriminate |]. destruct dateInput; [discriminate |].
  reflexivity.
Qed.

(** X11: without both arguments, each present and not empty, the program
    writes its usage and exits with status 1, and nothing is posted. *)
Theorem main_without_arguments_prints_usage
    fuel Date_parse toISOString fetchFrom argv w :
  given (nth_error argv 2) && given (nth_error argv 3) = false ->
  main fuel Date_parse toISOString fetchFrom argv w
  = (Ret {| console := [Usage]; status := 1 |}, w).
Proof.
  unfold main, given.
  destruct (nth_error argv 2) as [[| c u] |];
    destruct (nth_error argv 3) as [[| d i] |]; cbn;
    intros E; try discriminate E; reflexivity.
Qed.

Lemma main_without_arguments_prints_usage_witness :
  main 4 noDates plainISO exampleNet ["node"; "find.ts"; "http://node"]
    initialWorld
  = (Ret {| console := [Usage]; status := 1 |}, initialWorld).
Proof.
  apply (main_without_arguments_prints_usage 4 noDates plainISO exampleNet
           ["node"; "find.ts"; "http://node"] initialWorld).
  reflexivity.
Defined.

(** X12: a date that the parser refuses ends the program with that error
    written and status 1 before anything is posted: no search is
    attempted. *)
Theorem main_with_invalid_date_posts_nothing
    fuel Date_parse toISOString fetchFrom argv w rpcUrl dateInput e :
  nth_error argv 2 = Some rpcUrl ->
  nth_error argv 3 = Some dateInput ->
  given (Some rpcUrl) = true ->
  given (Some dateInput) = true ->
  parseTargetToUnixSeconds Date_parse dateInput = Throw e ->
  main fuel Date_parse toISOString fetchFrom argv w
  = (Ret {| console := [Failed (Error e)]; status := 1 |}, w).
Proof.
  intros E2 E3 G2 G3 Ep.
  rewrite (main_given _ _ _ _ _ _ _ E2 E3 G2 G3), Ep. reflexivity.
Qed.

Lemma main_with_invalid_date_posts_nothing_witness :
  main 4 noDates plainISO exampleNet
    ["node"; "find.ts"; "http://node"; "yesterday"] initialWorld
  = (Ret {| console := [Failed (Error (UnrecognizedDate "yesterday"))];
            status := 1 |}, initialWorld).
Proof.
  apply (main_with_invalid_date_posts_nothing 4 noDates plainISO exampleNet
           ["node"; "find.ts"; "http://node"; "yesterday"] initialWorld
           "http://node" "yesterday");
    reflexivity.
Defined.

(** X13: however a run ends, it has written exactly one line, and its status
    tells which: 0 with the block found or with the notice that there is
    none, 1 with the usage or with an error; no error escapes the
    program. *)
Theorem main_writes_one_line fuel Date_parse toISOString fetchFrom argv w :
  match fst (main fuel Date_parse toISOString fetchFrom argv w) with
  | Ret x =>
      status x = 0
      /\ (console x = [NoBlock] \/ exists r, console x = [Printed r])
      \/ status x = 1
         /\ (console x = [Usage] \/ exists t, console x = [Failed t])
  | Throw _ => False
  | Unsettled => True
  end.
Proof.
  unfold main.
  destruct (nth_error argv 2) as [[| c u] |];
    destruct (nth_error argv 3) as [[| d i] |]; cbn; auto.
  destruct (parseTargetToUnixSeconds Date_parse (String d i)) as [t | e |];
    cbn; eauto.
  destruct (findBlockBeforeDate fuel _ t w) as [[[found |] | e |] w'];
    cbn; eauto.
  destruct (Z.abs (Found.timestamp found * 1000) <=? timeLimit); cbn; eauto.
Qed.

(** X14: a numeric date at or below zero, as long as it is finite, is never
    found: once the latest height and the latest block have been
    fetched, the program writes that no block exists and exits with
    status 0, whatever the chain holds. *)
Theorem main_with_date_before_epoch_finds_nothing
    fuel Date_parse toISOString fetchFrom argv w rpcUrl dateInput n
    latestNum latest latestTs :
  nth_error argv 2 = Some rpcUrl ->
  nth_error argv 3 = Some dateInput ->
  given (Some rpcUrl) = true ->
  integerLiteralValue dateInput = Some n ->
  n <= 0 ->
  Z.abs n < overflow_threshold ->
  fst (getLatestBlockNumber (fetchFrom rpcUrl) w) = Ret latestNum ->
  fst (getBlockByNumber (fetchFrom rpcUrl) latestNum
         (posted w "eth_blockNumber" [])) = Ret latest ->
  StringToBigInt (RpcBlock.timestamp latest) = Some latestTs ->
  main fuel Date_parse toISOString fetchFrom argv w
  = (Ret {| console := [NoBlock]; status := 0 |}, opened w latestNum).
Proof.
  intros E2 E3 G2 Ev Hn Hfin El Eb Et.
  assert (isIntegerLiteral (trim dateInput) = true) as Hlit
    by (rewrite isIntegerLiteral_value, Ev; reflexivity).
  assert (given (Some dateInput) = true) as G3.
  { destruct dateInput; [discriminate Hlit | reflexivity]. }
  pose proof (Number_of_nonpos n Hn) as Hr.
  assert (parseTargetToUnixSeconds Date_parse dateInput
          = Ret (Number_of_bigint n)) as Ep.
  { unfold parseTargetToUnixSeconds, Number_of_string. rewrite Hlit, Ev.
    destruct (Z.abs n <? overflow_threshold) eqn:Ef;
      [| apply Z.ltb_ge in Ef; lia].
    destruct (10 ^ 10 <? Number_of_bigint n) eqn:E;
      [apply Z.ltb_lt in E; lia | reflexivity]. }
  rewrite (main_given _ _ _ _ _ _ _ E2 E3 G2 G3), Ep.
  rewrite (find_opened fuel _ (Number_of_bigint n) w _ _ _ El Eb Et).
  destruct (Number_of_bigint n <=? 0) eqn:E0;
    [reflexivity | apply Z.leb_gt in E0; lia].
Qed.

Lemma main_with_date_before_epoch_finds_nothing_witness :
  main 0 noDates plainISO exampleNet
    ["node"; "find.ts"; "http://node"; "-1704067199000"] initialWorld
  = (Ret {| console := [NoBlock]; status := 0 |}, opened initialWorld 5).
Proof.
  apply (main_with_date_before_epoch_finds_nothing 0 noDates plainISO
           exampleNet ["node"; "find.ts"; "http://node"; "-1704067199000"]
           initialWorld "http://node" "-1704067199000" (-1704067199000)
           5 (exampleBlock 5) 500);
    try reflexivity; vm_compute; (reflexivity || discriminate).
Defined.

(** X15: what the program prints is what the search found for the parsed
    date: a printed block is strictly before the date given, whatever
    the endpoint serves; its time is rendered from its timestamp in
    milliseconds, which is within the range of a [Date]; and the status
    is 0. *)
Theorem main_prints_a_block_before_the_date
    fuel Date_parse toISOString fetchFrom argv w x w' r :
  main fuel Date_parse toISOString fetchFrom argv w = (Ret x, w') ->
  console x = [Printed r] ->
  status x = 0
  /\ exists rpcUrl dateInput targetSec,
       nth_error argv 2 = Some rpcUrl
       /\ nth_error argv 3 = Some dateInput
       /\ parseTargetToUnixSeconds Date_parse dateInput = Ret targetSec
       /\ findBlockBeforeDate fuel (fetchFrom rpcUrl) targetSec w
          = (Ret (Some (Found.mk (Report.blockNumber r) (Report.blockHash r)
                          (Report.blockTimestamp r))), w')
       /\ 0 < targetSec
       /\ Report.blockTimestamp r < targetSec
       /\ Z.abs (Report.blockTimestamp r * 1000) <= timeLimit
       /\ Report.blockTimestampISO r
          = toISOString (Report.blockTimestamp r * 1000).
Proof.
  unfold main.
  destruct (nth_error argv 2) as [[| c u] |] eqn:E2;
    destruct (nth_error argv 3) as [[| d i] |] eqn:E3; cbn;
    try (intros E; inversion E; subst x; cbn; discriminate).
  destruct (parseTargetToUnixSeconds Date_parse (String d i)) as [t | e |]
    eqn:Ep; cbn;
    try (intros E; inversion E; subst x; cbn; discriminate).
  destruct (findBlockBeforeDate fuel (fetchFrom (String c u)) t w)
    as [[[found |] | e |] w1] eqn:Ef;
    try (intros E; inversion E; subst x; cbn; discriminate).
  destruct (Z.abs (Found.timestamp found * 1000) <=? timeLimit) eqn:El;
    try (intros E; inversion E; subst x; cbn; discriminate).
  intros E Ec; inversion E; subst x w1; clear E. cbn in Ec.
  inversion Ec; subst r; clear Ec. cbn.
  split; [reflexivity |].
  exists (String c u), (String d i), t.
  destruct (search_vouches_for_found _ _ _ _ _ _ Ef) as (Hpos & Hlt & _).
  destruct found as [fn fh ft]; cbn in *.
  apply Z.leb_le in El. repeat split; auto.
Qed.

Lemma main_prints_a_block_before_the_date_witness :
  status {| console := [Printed (Report.mk 2 "block-2" 200 (plainISO 200000))];
            status := 0 |} = 0
  /\ exists rpcUrl dateInput targetSec,
       nth_error ["node"; "find.ts"; "http://node"; "250"] 2 = Some rpcUrl
       /\ nth_error ["node"; "find.ts"; "http://node"; "250"] 3
          = Some dateInput
       /\ parseTargetToUnixSeconds noDates dateInput = Ret targetSec
       /\ findBlockBeforeDate 4 (exampleNet rpcUrl) targetSec initialWorld
          = (Ret (Some (Found.mk
                          (Report.blockNumber
                             (Report.mk 2 "block-2" 200 (plainISO 200000)))
                          (Report.blockHash
                             (Report.mk 2 "block-2" 200 (plainISO 200000)))
                          (Report.blockTimestamp
                             (Report.mk 2 "block-2" 200 (plainISO 200000))))),
             posted (posted (posted (opened initialWorld 5)
                       "eth_getBlockByNumber" (blockParams 2))
                       "eth_getBlockByNumber" (blockParams 4))
               "eth_getBlockByNumber" (blockParams 3))
       /\ 0 < targetSec
       /\ Report.blockTimestamp (Report.mk 2 "block-2" 200 (plainISO 200000))
          < targetSec
       /\ Z.abs (Report.blockTimestamp
                   (Report.mk 2 "block-2" 200 (plainISO 200000)) * 1000)
          <= timeLimit
       /\ Report.blockTimestampISO
            (Report.mk 2 "block-2" 200 (plainISO 200000))
          = plainISO
              (Report.blockTimestamp
                 (Report.mk 2 "block-2" 200 (plainISO 200000)) * 1000).
Proof.
  apply (main_prints_a_block_before_the_date 4 noDates plainISO exampleNet
           ["node"; "find.ts"; "http://node"; "250"] initialWorld
           {| console := [Printed (Report.mk 2 "block-2" 200
                                     (plainISO 200000))];
              status := 0 |}
           (posted (posted (posted (opened initialWorld 5)
                      "eth_getBlockByNumber" (blockParams 2))
                      "eth_getBlockByNumber" (blockParams 4))
              "eth_getBlockByNumber" (blockParams 3))
           (Report.mk 2 "block-2" 200 (plainISO 200000)));
    reflexivity.
Defined.

(** ** The turns of the loop *)

Lemma hexOf_injective a b :
  0 <= a -> 0 <= b -> hexOf a = hexOf b -> a = b.
Proof.
  intros Ha Hb E.
  pose proof (proj1 (StringToBigInt_hexOf a Ha)) as Ea.
  pose proof (proj1 (StringToBigInt_hexOf b Hb)) as Eb.
  rewrite E in Ea. congruence.
Qed.

Lemma iterates_probes url target k v w v' w' :
  iterates url target k v w v' w' ->
  exists heights,
    length heights = k
    /\ sent w' = (sent w ++ probesFrom (rpcId w) heights)%list
    /\ NoDup heights
    /\ Forall (fun h => lo v <= h <= hi v /\ (h < lo v' \/ hi v' < h))
         heights
    /\ lo v <= lo v' /\ hi v' <= hi v.
Proof.
  induction 1 as [v w | k v w v1 w1 v' w' Hc Hp _ IH].
  - exists []. cbn. rewrite app_nil_r.
    repeat split; auto; try lia. constructor.
  - destruct IH as (hs & Hlen & Hsent & Hnd & Hall & Hlo & Hhi).
    pose proof (probe_world url target v w) as Hw.
    rewrite Hp in Hw; cbn [snd] in Hw.
    apply probe_Ret in Hp as (b & t & _ & _ & Ev).
    unfold searching in Hc; apply Z.leb_le in Hc.
    pose proof (midpoint_between _ _ Hc) as Hm.
    assert (lo v <= lo v1 /\ hi v1 <= hi v
            /\ (midpoint (lo v) (hi v) < lo v1
                \/ hi v1 < midpoint (lo v) (hi v))) as (H1 & H2 & H3).
    { subst v1. destruct (Number_of_bigint t <? target); cbn [lo hi]; lia. }
    exists (midpoint (lo v) (hi v) :: hs).
    split; [cbn; lia |]. split; [| split; [| split]].
    + rewrite Hsent, Hw. unfold posted; cbn [sent rpcId probesFrom].
      rewrite <- app_assoc. reflexivity.
    + constructor; [| exact Hnd].
      intros Hin. rewrite Forall_forall in Hall.
      specialize (Hall _ Hin). lia.
    + constructor; [lia |].
      eapply Forall_impl; [| exact Hall]. cbn; intros h Hh; lia.
    + lia.
Qed.

(** X8: the turns of the loop cost one request each and never ask for a
    height twice: after [k] turns the [k] requests posted ask for
    pairwise distinct heights, all between the bounds that the turns
    started from and none between the bounds left; the hex strings asked
    for are distinct as well. *)
Theorem turns_never_repeat_a_height url target k v w v' w' :
  iterates url target k v w v' w' ->
  0 <= lo v ->
  exists heights,
    length heights = k
    /\ sent w' = (sent w ++ probesFrom (rpcId w) heights)%list
    /\ NoDup heights
    /\ NoDup (map hexOf heights)
    /\ Forall (fun h => lo v <= h <= hi v /\ (h < lo v' \/ hi v' < h))
         heights.
Proof.
  intros Hit Hlo.
  destruct (iterates_probes _ _ _ _ _ _ _ Hit)
    as (hs & Hlen & Hsent & Hnd & Hall & _).
  exists hs. repeat split; auto.
  apply NoDup_map_NoDup_ForallPairs; [| exact Hnd].
  intros a b Ha Hb. rewrite Forall_forall in Hall.
  pose proof (Hall a Ha). pose proof (Hall b Hb).
  apply hexOf_injective; lia.
Qed.

Lemma turns_never_repeat_a_height_witness :
  exists heights,
    length heights = 3%nat
    /\ sent (posted (posted (posted (opened initialWorld 5)
                "eth_getBlockByNumber" (blockParams 2))
                "eth_getBlockByNumber" (blockParams 4))
                "eth_getBlockByNumber" (blockParams 3))
       = (sent (opened initialWorld 5)
          ++ probesFrom (rpcId (opened initialWorld 5)) heights)%list
    /\ NoDup heights
    /\ NoDup (map hexOf heights)
    /\ Forall (fun h => lo (entry 5) <= h <= hi (entry 5)
                        /\ (h < 3 \/ 2 < h)) heights.
Proof.
  apply (turns_never_repeat_a_height exampleChain 250 3 (entry 5)
           (opened initialWorld 5)
           {| lo := 3; hi := 2;
              candidate := Some (Candidate.mk 2 200 "block-2") |}).
  - eapply iterates_S; [reflexivity | reflexivity |].
    eapply iterates_S; [reflexivity | reflexivity |].
    eapply iterates_S; [reflexivity | reflexivity |].
    apply iterates_O.
  - cbn; lia.
Defined.

(** X16: a block found with a timestamp beyond the range of a [Date] is not
    printed: rendering its time throws, and the program ends with that
    error written and status 1, after the search has run. *)
Theorem main_with_time_out_of_range_fails
    fuel Date_parse toISOString fetchFrom argv w rpcUrl dateInput
    targetSec found w' :
  nth_error argv 2 = Some rpcUrl ->
  nth_error argv 3 = Some dateInput ->
  given (Some rpcUrl) = true ->
  given (Some dateInput) = true ->
  parseTargetToUnixSeconds Date_parse dateInput = Ret targetSec ->
  findBlockBeforeDate fuel (fetchFrom rpcUrl) targetSec w
  = (Ret (Some found), w') ->
  timeLimit < Z.abs (Found.timestamp found * 1000) ->
  main fuel Date_parse toISOString fetchFrom argv w
  = (Ret {| console := [Failed RangeError]; status := 1 |}, w').
Proof.
  intros E2 E3 G2 G3 Ep Ef Hlim.
  rewrite (main_given _ _ _ _ _ _ _ E2 E3 G2 G3), Ep, Ef.
  destruct (Z.abs (Found.timestamp found * 1000) <=? timeLimit) eqn:El;
    [apply Z.leb_le in El; lia | reflexivity].
Qed.

Lemma main_with_time_out_of_range_fails_witness :
  main 0 noDates plainISO (fun _ => lateChain)
    ["node"; "find.ts"; "http://node"; "8640000000002000"] initialWorld
  = (Ret {| console := [Failed RangeError]; status := 1 |},
     opened initialWorld 0).
Proof.
  apply (main_with_time_out_of_range_fails 0 noDates plainISO
           (fun _ => lateChain)
           ["node"; "find.ts"; "http://node"; "8640000000002000"] initialWorld
           "http://node" "8640000000002000" 8640000000002
           (Found.mk 0 "block-0" 8640000000001));
    reflexivity.
Defined.

(** ** What [hexToBigInt] accepts besides hex *)

Lemma blank_trimStart s : blank s = true -> trimStart s = EmptyString.
Proof.
  induction s as [| c s IH]; cbn; [reflexivity |].
  destruct (isWhiteSpace c); cbn; [exact IH | discriminate].
Qed.

Lemma decimal_digit_plain c d :
  digitValue 10 c = Some d ->
  isWhiteSpace c = false /\ c <> "+"%char /\ c <> "-"%char.
Proof.
  intros E. split; [| split].
  - destruct (isWhiteSpace c) eqn:Ew; [| reflexivity].
    rewrite (digit_not_space 10 c Ew) in E; discriminate.
  - intros ->; vm_compute in E; discriminate.
  - intros ->; vm_compute in E; discriminate.
Qed.

(** X5: [hexToBigInt] is [BigInt]: besides hex it reads a string that is
    empty or blank as zero, and a string of decimal digits in base ten,
    so that a number sent without its [0x] is not refused but read in
    another base. *)
Theorem hexToBigInt_reads_blank_and_decimal s w :
  (blank s = true -> hexToBigInt s w = (Ret 0, w))
  /\ (forall v, digitsValue 10 s = Some v -> hexToBigInt s w = (Ret v, w)).
Proof.
  split.
  - intros Hb. apply hexToBigInt_read. unfold StringToBigInt, trim.
    rewrite (blank_trimStart s Hb). reflexivity.
  - intros v Ev. apply hexToBigInt_read.
    unfold digitsValue in Ev. destruct s as [| c rest]; [discriminate |].
    assert (trim (String c rest) = String c rest) as Et.
    { unfold trim.
      cbn [digitsValueFrom] in Ev.
      destruct (digitValue 10 c) as [d |] eqn:Ed; [| discriminate].
      destruct (decimal_digit_plain c d Ed) as (Hw & _ & _).
      cbn [trimStart]. rewrite Hw.
      apply (digits_trimEnd 10 (String c rest) 0 v).
      cbn [digitsValueFrom]. rewrite Ed. exact Ev. }
    unfold StringToBigInt. rewrite Et.
    cbn [digitsValueFrom] in Ev.
    destruct (digitValue 10 c) as [d |] eqn:Ed; [| discriminate].
    assert (digitsValue 10 (String c rest) = Some v) as Ev'.
    { unfold digitsValue; cbn [digitsValueFrom]. rewrite Ed. exact Ev. }
    destruct c as [[] [] [] [] [] [] [] []];
      try (vm_compute in Ed; discriminate Ed); try exact Ev'.
    destruct rest as [| c1 rest]; [exact Ev' |].
    cbn [digitsValueFrom] in Ev.
    destruct (digitValue 10 c1) as [d1 |] eqn:Ed1; [| discriminate].
    destruct c1 as [[] [] [] [] [] [] [] []];
      try (vm_compute in Ed1; discriminate Ed1); exact Ev'.
Qed.

Lemma hexToBigInt_reads_blank_and_decimal_witness :
  hexToBigInt "  " initialWorld = (Ret 0, initialWorld)
  /\ hexToBigInt "0100" initialWorld = (Ret 100, initialWorld).
Proof.
  split.
  - apply (proj1 (hexToBigInt_reads_blank_and_decimal "  " initialWorld)).
    reflexivity.
  - apply (proj2 (hexToBigInt_reads_blank_and_decimal "0100" initialWorld)).
    reflexivity.
Defined.
